(** * KeyEnv Node.js SDK: the client of [src/client.ts], embedded and verified

    The embedding follows the current [client.ts] (the one with the export
    cache and the permission methods) and [types.ts].

    - JavaScript values that the client only passes along (parsed response
      bodies, request bodies) are [JSValue]s; property reads on them follow
      JavaScript (a read on [undefined] or [null] throws a [TypeError]).
    - Arguments have their TypeScript types: [string] is [string], optional
      parameters are [option], [EnvironmentRole] is an enumeration.
      JavaScript strings are sequences of UTF-16 code units and Rocq strings
      are sequences of bytes; every character the client searches for or
      replaces is ASCII, so both views agree on where they occur.
    - [number]s (HTTP status, milliseconds, the cache TTL) are integers [Z];
      fractional and NaN values are not modelled.
    - An [async] method is a function from the [World] before the call to
      its completion and the [World] after it.  The world holds the
      client's [secretsCache], the clock read by [Date.now()], the requests
      handed to [fetch] so far and the behaviour of the network.  A method
      runs to its end before the next one starts: interleavings of
      overlapping calls are not modelled.
    - The timeout of [request] is a timer racing the network; here the
      network decides the race: a request that is aborted is a [fetch] that
      rejects with an error named [AbortError]. *)

From Stdlib Require Import ZArith String Ascii List Bool Lia.
From stdpp Require Import base option list strings gmap fin_maps.

Set Default Proof Using "Type".
Set Warnings "-register-all".
Local Open Scope Z_scope.

(** ** JavaScript values *)

(** [VObj] lists an object's own properties in order; a property name
    occurs once in it (as in every JavaScript object). *)
Inductive JSValue : Type :=
| VUndefined
| VNull
| VBool (b : bool)
| VNum (n : Z)
| VStr (s : string)
| VArr (items : list JSValue)
| VObj (props : list (string * JSValue)).

(** [types.ts]: [class KeyEnvError extends Error].  [err_message] is the
    argument handed to [super(message)]: the message itself when it is a
    string, which is what the declared type says. *)
Record KeyEnvError : Type := mkKeyEnvError {
  err_message : JSValue;
  err_status : Z;
  err_code : JSValue;
  err_details : JSValue
}.

(** What a [throw] or a rejected promise carries. *)
Inductive Thrown : Type :=
| ThrownKeyEnvError (e : KeyEnvError)          (* error instanceof KeyEnvError *)
| ThrownError (name : string) (msg : string)   (* any other instance of Error *)
| ThrownValue (v : JSValue).                   (* not an instance of Error *)

(** How an evaluation or an awaited promise ends. *)
Inductive Completion (A : Type) : Type :=
| Return (a : A)
| Throw (e : Thrown).
Arguments Return {A} a.
Arguments Throw {A} e.

(** [if (v)], [v ? a : b], [a && b]. *)
Definition truthy (v : JSValue) : bool :=
  match v with
  | VUndefined | VNull => false
  | VBool b => b
  | VNum n => negb (n =? 0)
  | VStr s => negb (String.eqb s "")
  | VArr _ | VObj _ => true
  end.

Definition truthy_string (s : string) : bool := negb (String.eqb s "").

Fixpoint own_property (name : string) (props : list (string * JSValue)) : JSValue :=
  match props with
  | [] => VUndefined
  | (k, v) :: rest => if String.eqb k name then v else own_property name rest
  end.

(** V8's wording of the error raised by a property read on [undefined] or
    [null]. *)
Definition cannot_read (what name : string) : Thrown :=
  ThrownError "TypeError"
    ("Cannot read properties of " +:+ what +:+ " (reading '" +:+ name +:+ "')").

(** [v.name] for the names the client reads ([data], [error], [code],
    [details], [key], [value]): none of them is a property of a primitive
    or of an array. *)
Definition prop (v : JSValue) (name : string) : Completion JSValue :=
  match v with
  | VUndefined => Throw (cannot_read "undefined" name)
  | VNull => Throw (cannot_read "null" name)
  | VObj props => Return (own_property name props)
  | VBool _ | VNum _ | VStr _ | VArr _ => Return VUndefined
  end.

(** ** [types.ts] *)

Inductive EnvironmentRole : Type := none | read | write | admin.

Definition role_string (r : EnvironmentRole) : string :=
  match r with
  | none => "none"
  | read => "read"
  | write => "write"
  | admin => "admin"
  end.

(** The two fields of [SecretWithValue] that the client itself reads. *)
Record SecretWithValue : Type := mkSecret {
  secret_key : string;
  secret_value : string
}.

(** [BulkSecretItem]. *)
Record BulkSecretItem : Type := mkBulkSecretItem {
  item_key : string;
  item_value : string;
  item_description : option string
}.

(** [KeyEnvOptions] after the constructor has resolved the defaults: the
    read-only fields of a [KeyEnv] instance. *)
Record KeyEnv : Type := mkKeyEnv {
  token : string;
  baseUrl : string;
  timeout : Z;
  cacheTtl : Z
}.

(** [KeyEnvOptions], as the constructor reads it. *)
Record KeyEnvOptions : Type := mkKeyEnvOptions {
  options_token : string;
  options_baseUrl : option string;
  options_timeout : option Z;
  options_cacheTtl : option Z
}.

(** The two variables of [process.env] that the constructor reads. *)
Record ProcessEnv : Type := mkProcessEnv {
  KEYENV_API_URL : option string;
  KEYENV_CACHE_TTL : option string
}.

Definition DEFAULT_BASE_URL : string := "https://api.keyenv.dev".
Definition DEFAULT_TIMEOUT : Z := 30000.

(** [s.replace(/\/+$/, '')]: [s] without the slashes at its end. *)
Fixpoint strip_trailing_slashes (s : string) : string :=
  match s with
  | EmptyString => EmptyString
  | String c rest =>
      match strip_trailing_slashes rest with
      | EmptyString => if Ascii.eqb c "/" then EmptyString else String c EmptyString
      | kept => String c kept
      end
  end.

(** [new KeyEnv(options)].  [parseInt] reads the TTL of the environment
    variable, [parseInt(text, 10)]; where JavaScript reads NaN, which is not
    above 0, it stands for a reading that is not above 0 either. *)
Definition new_KeyEnv (parseInt : string -> Z) (options : KeyEnvOptions)
    (env : ProcessEnv) : Completion KeyEnv :=
  if negb (truthy_string (options_token options))
  then Throw (ThrownError "Error" "KeyEnv token is required")
  else
    Return
      {| token := options_token options;
         baseUrl :=
           strip_trailing_slashes
             (match options_baseUrl options with
              | Some given => given
              | None => default DEFAULT_BASE_URL (KEYENV_API_URL env)
              end);
         timeout :=
           match options_timeout options with
           | Some t => if t =? 0 then DEFAULT_TIMEOUT else t
           | None => DEFAULT_TIMEOUT
           end;
         cacheTtl :=
           match options_cacheTtl options with
           | Some ttl => ttl
           | None =>
               match KEYENV_CACHE_TTL env with
               | Some text => if truthy_string text then parseInt text else 0
               | None => 0
               end
           end |}.

(** ** The network *)

(** What [request] hands to [fetch].  [body] is the value given to
    [JSON.stringify], [None] when no body is sent. *)
Record Request : Type := mkRequest {
  url : string;
  method : string;
  headers : list (string * string);
  body : option JSValue
}.

(** The part of a [Response] that [request] looks at.  [json] is how the
    promise of [response.json()] settles. *)
Record Response : Type := mkResponse {
  ok : bool;
  status : Z;
  statusText : string;
  json : Completion JSValue
}.

(** An entry of [secretsCache]. *)
Record CacheEntry : Type := mkCacheEntry {
  secrets : JSValue;
  expiresAt : Z
}.

(** The world a method runs in.  [network sent r] is how [fetch] settles
    for request [r] when [sent] are the requests issued before it, paired
    with the reading of the clock at that moment. *)
Record World : Type := mkWorld {
  secretsCache : gmap string CacheEntry;
  clock : Z;
  sent : list Request;
  network : list Request -> Request -> Z * Completion Response
}.

Definition Async (A : Type) : Type := World -> Completion A * World.

Definition ret {A} (a : A) : Async A := fun w => (Return a, w).

Definition throw {A} (e : Thrown) : Async A := fun w => (Throw e, w).

Definition bind {A B} (m : Async A) (k : A -> Async B) : Async B :=
  fun w =>
    match m w with
    | (Return a, w') => k a w'
    | (Throw e, w') => (Throw e, w')
    end.

Notation "'let*' x ':=' m 'in' k" := (bind m (fun x => k))
  (at level 10, x name, m at level 100, k at level 200).

(** An evaluation that may throw, inside a method. *)
Definition eval {A} (c : Completion A) : Async A := fun w => (c, w).

(** [try { m } catch (error) { handler error }] *)
Definition try_catch {A} (m : Async A) (handler : Thrown -> Async A) : Async A :=
  fun w =>
    match m w with
    | (Return a, w') => (Return a, w')
    | (Throw e, w') => handler e w'
    end.

(** [Date.now()] *)
Definition Date_now : Async Z := fun w => (Return (clock w), w).

Definition with_cache (f : gmap string CacheEntry -> gmap string CacheEntry) (w : World) : World :=
  {| secretsCache := f (secretsCache w); clock := clock w; sent := sent w; network := network w |}.

(** [this.secretsCache.get(key)] *)
Definition cache_get (key : string) : Async (option CacheEntry) :=
  fun w => (Return (secretsCache w !! key), w).

(** [this.secretsCache.set(key, entry)] *)
Definition cache_set (key : string) (entry : CacheEntry) : Async unit :=
  fun w => (Return tt, with_cache (insert key entry) w).

(** [this.secretsCache.delete(key)] *)
Definition cache_delete (key : string) : Async unit :=
  fun w => (Return tt, with_cache (delete key) w).

(** [this.secretsCache.clear()] *)
Definition cache_clear : Async unit :=
  fun w => (Return tt, with_cache (fun _ => ∅) w).

(** [key.startsWith(start)] *)
Definition startsWith (key start : string) : bool := String.prefix start key.

(** [for (const key of this.secretsCache.keys()) if (key.startsWith(start))
    this.secretsCache.delete(key)].  A [Map] hands out its keys in insertion
    order and a [gmap] in its own; the deletions commute, so the map left
    behind is the same. *)
Definition cache_delete_startsWith (start : string) : Async unit :=
  fun w =>
    (Return tt,
     with_cache
       (fun cache =>
          foldr (fun key m => if startsWith key start then delete key m else m)
                cache (map_to_list cache).*1)
       w).

(** [await fetch(url, init)]: the request is recorded, the network settles
    it and the clock moves to the moment it did. *)
Definition fetch (r : Request) : Async Response :=
  fun w =>
    let '(t, settled) := network w (sent w) r in
    (settled, {| secretsCache := secretsCache w; clock := t;
                 sent := sent w ++ [r]; network := network w |}).

(** ** [client.ts] *)

Definition getCacheKey (projectId environment : string) : string :=
  projectId +:+ ":" +:+ environment.

(** The [catch (error)] clause of [request]. *)
Definition request_catch {A} (error : Thrown) : Async A :=
  match error with
  | ThrownKeyEnvError e => throw (ThrownKeyEnvError e)
  | ThrownError name msg =>
      if String.eqb name "AbortError"
      then throw (ThrownKeyEnvError (mkKeyEnvError (VStr "Request timeout") 408 VUndefined VUndefined))
      else throw (ThrownKeyEnvError (mkKeyEnvError (VStr msg) 0 VUndefined VUndefined))
  | ThrownValue _ =>
      throw (ThrownKeyEnvError (mkKeyEnvError (VStr "Network error") 0 VUndefined VUndefined))
  end.

Definition request_headers (this : KeyEnv) : list (string * string) :=
  [("Authorization", "Bearer " +:+ token this);
   ("Content-Type", "application/json");
   ("User-Agent", "keyenv-node/1.0.0")].

(** The arguments of the call of [fetch] in [request]. *)
Definition request_init (this : KeyEnv) (method path : string) (body : JSValue) : Request :=
  {| url := baseUrl this +:+ path;
     method := method;
     headers := request_headers this;
     body := if truthy body then Some body else None |}.

(** [private async request<T>(method, path, body?)].  The last statement,
    [return response.json()], hands the promise back without awaiting it:
    when that promise rejects, the rejection is the method's own and does
    not pass through the [catch] clause. *)
Definition request (this : KeyEnv) (method path : string) (body : JSValue) : Async JSValue :=
  fun w =>
    match fetch (request_init this method path body) w with
    | (Throw error, w') => request_catch error w'
    | (Return response, w') =>
        if negb (ok response) then
          let errorData :=
            match json response with
            | Return parsed => parsed
            | Throw _ => VObj [("error", VStr (statusText response))]
            end in
          try_catch
            (let* error := eval (prop errorData "error") in
             let* code := eval (prop errorData "code") in
             let* details := eval (prop errorData "details") in
             throw (ThrownKeyEnvError (mkKeyEnvError error (status response) code details)))
            request_catch w'
        else if status response =? 204 then (Return VUndefined, w')
        else (json response, w')
    end.

Definition projects_path (projectId : string) : string :=
  "/api/v1/projects/" +:+ projectId.

Definition environment_path (projectId environment : string) : string :=
  projects_path projectId +:+ "/environments/" +:+ environment.

(** An optional string argument as a value: [undefined] when left out. *)
Definition optional (a : option string) : JSValue :=
  match a with
  | Some s => VStr s
  | None => VUndefined
  end.

(** [clearCache(projectId?, environment?)] *)
Definition clearCache (projectId environment : option string) : Async unit :=
  match projectId with
  | Some p =>
      if truthy_string p then
        match environment with
        | Some e =>
            if truthy_string e then cache_delete (getCacheKey p e)
            else cache_delete_startsWith (p +:+ ":")
        | None => cache_delete_startsWith (p +:+ ":")
        end
      else cache_clear
  | None => cache_clear
  end.

(** [async deleteProject(projectId)] *)
Definition deleteProject (this : KeyEnv) (projectId : string) : Async unit :=
  let* _ := request this "DELETE" (projects_path projectId) VUndefined in
  ret tt.

(** [async deleteEnvironment(projectId, environment)] *)
Definition deleteEnvironment (this : KeyEnv) (projectId environment : string) : Async unit :=
  let* _ := request this "DELETE" (environment_path projectId environment) VUndefined in
  ret tt.

(** [async exportSecrets(projectId, environment)] *)
Definition exportSecrets (this : KeyEnv) (projectId environment : string) : Async JSValue :=
  let cacheKey := getCacheKey projectId environment in
  let* hit :=
    (if 0 <? cacheTtl this then
       let* cached := cache_get cacheKey in
       match cached with
       | Some entry =>
           let* t := Date_now in
           if t <? expiresAt entry then ret (Some (secrets entry))
           else
             let* _ := cache_delete cacheKey in
             ret None
       | None => ret None
       end
     else ret None) in
  match hit with
  | Some cached_secrets => ret cached_secrets
  | None =>
      let* response :=
        request this "GET"
          (environment_path projectId environment +:+ "/secrets/export") VUndefined in
      let* _ :=
        (if 0 <? cacheTtl this then
           let* data := eval (prop response "data") in
           let* t := Date_now in
           cache_set cacheKey
             {| secrets := data; expiresAt := t + cacheTtl this * 1000 |}
         else ret tt) in
      eval (prop response "data")
  end.

(** [async createSecret(projectId, environment, key, value, description?)] *)
Definition createSecret (this : KeyEnv) (projectId environment key value : string)
    (description : option string) : Async JSValue :=
  let* response :=
    request this "POST" (environment_path projectId environment +:+ "/secrets")
      (VObj [("key", VStr key); ("value", VStr value);
             ("description", optional description)]) in
  let* _ := clearCache (Some projectId) (Some environment) in
  eval (prop response "data").

(** [async updateSecret(projectId, environment, key, value, description?)] *)
Definition updateSecret (this : KeyEnv) (projectId environment key value : string)
    (description : option string) : Async JSValue :=
  let* response :=
    request this "PUT"
      (environment_path projectId environment +:+ "/secrets/" +:+ key)
      (VObj [("value", VStr value); ("description", optional description)]) in
  let* _ := clearCache (Some projectId) (Some environment) in
  eval (prop response "data").

(** [async setSecret(projectId, environment, key, value, description?)] *)
Definition setSecret (this : KeyEnv) (projectId environment key value : string)
    (description : option string) : Async JSValue :=
  try_catch
    (updateSecret this projectId environment key value description)
    (fun error =>
       match error with
       | ThrownKeyEnvError e =>
           if err_status e =? 404
           then createSecret this projectId environment key value description
           else throw error
       | _ => throw error
       end).

(** [async deleteSecret(projectId, environment, key)] *)
Definition deleteSecret (this : KeyEnv) (projectId environment key : string) : Async unit :=
  let* _ :=
    request this "DELETE"
      (environment_path projectId environment +:+ "/secrets/" +:+ key) VUndefined in
  clearCache (Some projectId) (Some environment).

(** [async getSecretHistory(projectId, environment, key)] *)
Definition getSecretHistory (this : KeyEnv) (projectId environment key : string) : Async JSValue :=
  let* response :=
    request this "GET"
      (environment_path projectId environment +:+ "/secrets/" +:+ key +:+ "/history")
      VUndefined in
  eval (prop response "data").

Definition bulk_item (item : BulkSecretItem) : JSValue :=
  VObj [("key", VStr (item_key item)); ("value", VStr (item_value item));
        ("description", optional (item_description item))].

(** [async bulkImport(projectId, environment, secrets, options = {})];
    [overwrite] is [options.overwrite]. *)
Definition bulkImport (this : KeyEnv) (projectId environment : string)
    (items : list BulkSecretItem) (overwrite : option bool) : Async JSValue :=
  let* response :=
    request this "POST" (environment_path projectId environment +:+ "/secrets/bulk")
      (VObj [("secrets", VArr (map bulk_item items));
             ("overwrite", VBool (default false overwrite))]) in
  let* _ := clearCache (Some projectId) (Some environment) in
  eval (prop response "data").

(** [async setPermission(projectId, environment, userId, role)] *)
Definition setPermission (this : KeyEnv) (projectId environment userId : string)
    (role : EnvironmentRole) : Async JSValue :=
  let* response :=
    request this "PUT"
      (environment_path projectId environment +:+ "/permissions/" +:+ userId)
      (VObj [("role", VStr (role_string role))]) in
  eval (prop response "data").

(** [async deletePermission(projectId, environment, userId)] *)
Definition deletePermission (this : KeyEnv) (projectId environment userId : string) : Async unit :=
  let* _ :=
    request this "DELETE"
      (environment_path projectId environment +:+ "/permissions/" +:+ userId)
      VUndefined in
  ret tt.

(** The caller's side of [bulkSetPermissions]: [{ userId, role }]. *)
Record PermissionInput : Type := mkPermissionInput {
  userId : string;
  role : EnvironmentRole
}.

(** The caller's side of [setProjectDefaults]:
    [{ environmentName, defaultRole }]. *)
Record DefaultInput : Type := mkDefaultInput {
  environmentName : string;
  defaultRole : EnvironmentRole
}.

(** [p => ({ user_id: p.userId, role: p.role })] *)
Definition permission_wire (p : PermissionInput) : JSValue :=
  VObj [("user_id", VStr (userId p)); ("role", VStr (role_string (role p)))].

(** [d => ({ environment_name: d.environmentName, default_role: d.defaultRole })] *)
Definition default_wire (d : DefaultInput) : JSValue :=
  VObj [("environment_name", VStr (environmentName d));
        ("default_role", VStr (role_string (defaultRole d)))].

Definition bulkSetPermissions_body (permissions : list PermissionInput) : JSValue :=
  VObj [("permissions", VArr (map permission_wire permissions))].

Definition setProjectDefaults_body (defaults : list DefaultInput) : JSValue :=
  VObj [("defaults", VArr (map default_wire defaults))].

(** [async bulkSetPermissions(projectId, environment, permissions)] *)
Definition bulkSetPermissions (this : KeyEnv) (projectId environment : string)
    (permissions : list PermissionInput) : Async JSValue :=
  let* response :=
    request this "PUT" (environment_path projectId environment +:+ "/permissions")
      (bulkSetPermissions_body permissions) in
  eval (prop response "data").

(** [async getMyPermissions(projectId)] *)
Definition getMyPermissions (this : KeyEnv) (projectId : string) : Async JSValue :=
  request this "GET" (projects_path projectId +:+ "/my-permissions") VUndefined.

(** [async setProjectDefaults(projectId, defaults)] *)
Definition setProjectDefaults (this : KeyEnv) (projectId : string)
    (defaults : list DefaultInput) : Async JSValue :=
  let* response :=
    request this "PUT" (projects_path projectId +:+ "/permissions/defaults")
      (setProjectDefaults_body defaults) in
  eval (prop response "data").

(** ** Methods that compute with the exported secrets

    [exportSecretsAsObject] and [generateEnvFile] read the [key] and the
    [value] of every exported secret as strings, as the declared type
    [SecretWithValue[]] says they are.  The cast in [request<T>] checks
    nothing, so the body of a response may be anything; the model reads the
    exported value at its declared type and has no outcome ([None]) for a
    run in which the value does not have it. *)

Definition as_SecretWithValue (v : JSValue) : option SecretWithValue :=
  match v with
  | VObj props =>
      match own_property "key" props, own_property "value" props with
      | VStr k, VStr x => Some {| secret_key := k; secret_value := x |}
      | _, _ => None
      end
  | _ => None
  end.

Definition as_secrets (v : JSValue) : option (list SecretWithValue) :=
  match v with
  | VArr items => mapM as_SecretWithValue items
  | _ => None
  end.

Definition Typed (A : Type) : Type := World -> option (Completion A * World).

(** [Object.fromEntries(entries)]: the entries are defined one after the
    other on a fresh object, a later one replacing an earlier one of the
    same name. *)
Definition Object_fromEntries (entries : list (string * string)) : gmap string string :=
  foldl (fun obj entry => <[entry.1 := entry.2]> obj) ∅ entries.

(** [async exportSecretsAsObject(projectId, environment)] *)
Definition exportSecretsAsObject (this : KeyEnv) (projectId environment : string)
    : Typed (gmap string string) :=
  fun w =>
    match exportSecrets this projectId environment w with
    | (Throw error, w') => Some (Throw error, w')
    | (Return exported, w') =>
        match as_secrets exported with
        | Some secrets =>
            Some (Return (Object_fromEntries
                            (map (fun s => (secret_key s, secret_value s)) secrets)), w')
        | None => None
        end
    end.

Definition LF : string := String "010"%char "".
Definition DQUOTE : string := String "034"%char "".
Definition BACKSLASH : string := String "092"%char "".

(** [s.includes(search)] *)
Fixpoint includes (s search : string) : bool :=
  String.prefix search s ||
  match s with
  | EmptyString => false
  | String _ rest => includes rest search
  end.

(** [s.replace(/c/g, replacement)] for a pattern that is the one character
    [c] and a replacement without [$]-patterns. *)
Fixpoint replace_global (c : ascii) (replacement s : string) : string :=
  match s with
  | EmptyString => EmptyString
  | String a rest =>
      (if Ascii.eqb a c then replacement else String a "")
      +:+ replace_global c replacement rest
  end.

(** The body of the loop of [generateEnvFile]: the line pushed for one
    secret. *)
Definition env_line (secret : SecretWithValue) : string :=
  let value := secret_value secret in
  if includes value LF || includes value DQUOTE || includes value "'"
     || includes value " " || includes value "$"
  then
    let escaped :=
      replace_global "$" (BACKSLASH +:+ "$")
        (replace_global "010" (BACKSLASH +:+ "n")
           (replace_global "034" (BACKSLASH +:+ DQUOTE)
              (replace_global "092" (BACKSLASH +:+ BACKSLASH) value))) in
    secret_key secret +:+ "=" +:+ DQUOTE +:+ escaped +:+ DQUOTE
  else secret_key secret +:+ "=" +:+ value.

(** The text [generateEnvFile] returns for the exported [secrets];
    [generated_at] is [new Date().toISOString()]. *)
Definition env_file (environment generated_at : string)
    (secrets : list SecretWithValue) : string :=
  let lines :=
    foldl (fun (lines : list string) secret => (lines ++ [env_line secret])%list)
      ["# Generated by KeyEnv";
       "# Environment: " +:+ environment;
       "# Generated at: " +:+ generated_at;
       ""]
      secrets in
  String.concat LF lines +:+ LF.

(** [async generateEnvFile(projectId, environment)].  [toISOString] is the
    platform's rendering of the clock, [new Date().toISOString()]. *)
Definition generateEnvFile (toISOString : Z -> string) (this : KeyEnv)
    (projectId environment : string) : Typed string :=
  fun w =>
    match exportSecrets this projectId environment w with
    | (Throw error, w') => Some (Throw error, w')
    | (Return exported, w') =>
        match as_secrets exported with
        | Some secrets =>
            Some (Return (env_file environment (toISOString (clock w')) secrets), w')
        | None => None
        end
    end.

(** * Definitions used by the statements *)

(** ** The requests of the methods *)

Definition export_path (projectId environment : string) : string :=
  environment_path projectId environment +:+ "/secrets/export".

Definition history_path (projectId environment key : string) : string :=
  environment_path projectId environment +:+ "/secrets/" +:+ key +:+ "/history".

Definition my_permissions_path (projectId : string) : string :=
  projects_path projectId +:+ "/my-permissions".

(** The request of [updateSecret]. *)
Definition update_request this projectId environment key value description : Request :=
  request_init this "PUT"
    (environment_path projectId environment +:+ "/secrets/" +:+ key)
    (VObj [("value", VStr value); ("description", optional description)]).

(** The request of [createSecret]. *)
Definition create_request this projectId environment key value description : Request :=
  request_init this "POST"
    (environment_path projectId environment +:+ "/secrets")
    (VObj [("key", VStr key); ("value", VStr value);
           ("description", optional description)]).

(** A [KeyEnvError] without [code] and [details]. *)
Definition typed_error (message : JSValue) (code : Z) : Thrown :=
  ThrownKeyEnvError (mkKeyEnvError message code VUndefined VUndefined).

(** ** The cache *)

(** The entry [exportSecrets] answers from: the one under the pair's key,
    when caching is on and the entry has not expired. *)
Definition fresh_entry (this : KeyEnv) (projectId environment : string) (w : World)
    : option CacheEntry :=
  if 0 <? cacheTtl this then
    match secretsCache w !! getCacheKey projectId environment with
    | Some entry => if clock w <? expiresAt entry then Some entry else None
    | None => None
    end
  else None.

(** The world at a later reading of the clock. *)
Definition at_time (t : Z) (w : World) : World :=
  {| secretsCache := secretsCache w; clock := t; sent := sent w; network := network w |}.

(** [op] is [call] followed, when [call] succeeds, by clearing the pair's
    entry; when [call] fails, [op] fails the same way and the cache is as it
    was. *)
Definition invalidates {A} (op : Async A) (call : Async JSValue)
    (projectId environment : string) (w : World) : Prop :=
  (forall response w1, call w = (Return response, w1) ->
     (op w).2 = (clearCache (Some projectId) (Some environment) w1).2 /\
     secretsCache (op w).2 !! getCacheKey projectId environment = None) /\
  (forall error w1, call w = (Throw error, w1) ->
     op w = (Throw error, w1) /\ secretsCache w1 = secretsCache w).

(** [op] neither reads nor changes the cache: over another cache it ends the
    same way and leaves that cache as it was; and an entry that has not
    expired is still what [exportSecrets] answers with after [op]. *)
Definition leaves_cache {A} (this : KeyEnv) (op : Async A) : Prop :=
  (forall f w, op (with_cache f w) = ((op w).1, with_cache f (op w).2)) /\
  (forall w, secretsCache (op w).2 = secretsCache w) /\
  (forall w projectId environment entry t,
     0 < cacheTtl this ->
     secretsCache w !! getCacheKey projectId environment = Some entry ->
     t < expiresAt entry ->
     exportSecrets this projectId environment (at_time t (op w).2) =
       (Return (secrets entry), at_time t (op w).2)).

(** [s] has no colon in it. *)
Definition colon_free (s : string) : Prop := includes s ":" = false.

(** ** The lines of the generated file, as the specification words them *)

(** [c] occurs in [s]. *)
Definition contains (c : ascii) (s : string) : Prop := c ∈ list_ascii_of_string s.

(** The characters that make a value need quotes: space, double quote,
    single quote, newline and dollar. *)
Definition quoting_chars : list ascii := [" "; "034"; "'"; "010"; "$"]%char.

(** A value that contains none of them. *)
Definition plain (value : string) : Prop :=
  forall c, c ∈ quoting_chars -> ~ contains c value.

(** A backslash is doubled; a double quote, a newline and a dollar get a
    backslash in front (the newline as the letter n). *)
Definition escape_char (c : ascii) : string :=
  if Ascii.eqb c "092" then BACKSLASH +:+ BACKSLASH
  else if Ascii.eqb c "034" then BACKSLASH +:+ DQUOTE
  else if Ascii.eqb c "010" then BACKSLASH +:+ "n"
  else if Ascii.eqb c "$" then BACKSLASH +:+ "$"
  else String c "".

Fixpoint flat_map_string (f : ascii -> string) (s : string) : string :=
  match s with
  | EmptyString => EmptyString
  | String a rest => f a +:+ flat_map_string f rest
  end.

(** The value with every character escaped on its own. *)
Definition escape (value : string) : string := flat_map_string escape_char value.

(** The first four lines of the file. *)
Definition env_header (environment generated_at : string) : list string :=
  ["# Generated by KeyEnv";
   "# Environment: " +:+ environment;
   "# Generated at: " +:+ generated_at;
   ""].

(** ** Property names *)

(** The names of the properties of a value, at any depth. *)
Fixpoint property_names (v : JSValue) : list string :=
  match v with
  | VArr items => flat_map property_names items
  | VObj props =>
      flat_map (fun entry => match entry with
                             | (name, x) => name :: property_names x
                             end) props
  | _ => []
  end.

Definition is_upper (c : ascii) : bool :=
  (65 <=? nat_of_ascii c)%nat && (nat_of_ascii c <=? 90)%nat.

(** A name with a capital letter in it, as every camelCase name has. *)
Fixpoint has_upper (s : string) : bool :=
  match s with
  | EmptyString => false
  | String c rest => is_upper c || has_upper rest
  end.

(** ** The last secret of a key *)

(** The value of the last secret of the list whose key is [k]. *)
Fixpoint last_value (k : string) (secrets : list SecretWithValue) : option string :=
  match secrets with
  | [] => None
  | s :: rest =>
      match last_value k rest with
      | Some v => Some v
      | None => if decide (secret_key s = k) then Some (secret_value s) else None
      end
  end.

(** ** Clients, networks and values of the examples *)

Definition example_client (ttl : Z) : KeyEnv :=
  {| token := "test-token"; baseUrl := "https://api.keyenv.dev";
     timeout := 30000; cacheTtl := ttl |}.

(** A network that settles every request the same way, at time [t]. *)
Definition always (t : Z) (settled : Completion Response)
    : list Request -> Request -> Z * Completion Response :=
  fun _ _ => (t, settled).

(** The world of a client that has not done anything yet. *)
Definition new_world (net : list Request -> Request -> Z * Completion Response) : World :=
  {| secretsCache := ∅; clock := 0; sent := []; network := net |}.

(** A response with a JSON body; it is ok for a status from 200 to 299. *)
Definition json_response (code : Z) (parsed : JSValue) : Response :=
  {| ok := (200 <=? code) && (code <=? 299); status := code;
     statusText := ""; json := Return parsed |}.

(** A secret as the unit tests of the client write it. *)
Definition secret_object (k x : string) : JSValue :=
  VObj [("id", VStr "s1"); ("environment_id", VStr "env-1"); ("key", VStr k);
        ("value", VStr x); ("type", VStr "string"); ("version", VNum 1)].

(** A network that answers the update with 404 and the create with 201, as
    for a key that does not exist yet. *)
Definition missing_key_network : list Request -> Request -> Z * Completion Response :=
  fun _ r =>
    if String.eqb (method r) "PUT"
    then (10, Return (json_response 404 (VObj [("error", VStr "Not found")])))
    else (20, Return (json_response 201 (VObj [("data", secret_object "NEW_KEY" "new-value")]))).

(** Unfolds the plumbing of [Async]. *)
Ltac run :=
  unfold bind, ret, throw, eval, try_catch, Date_now, cache_get, cache_set,
    cache_delete, cache_clear; simpl.

(** * The other methods of [client.ts] *)

(** [async getCurrentUser()] *)
Definition getCurrentUser (this : KeyEnv) : Async JSValue :=
  let* response := request this "GET" "/api/v1/users/me" VUndefined in
  eval (prop response "data").

(** [async validateToken()] *)
Definition validateToken (this : KeyEnv) : Async JSValue :=
  getCurrentUser this.

(** [async listProjects()] *)
Definition listProjects (this : KeyEnv) : Async JSValue :=
  let* response := request this "GET" "/api/v1/projects" VUndefined in
  eval (prop response "data").

(** [async getProject(projectId)] *)
Definition getProject (this : KeyEnv) (projectId : string) : Async JSValue :=
  let* response := request this "GET" (projects_path projectId) VUndefined in
  eval (prop response "data").

(** [async createProject(teamId, name)] *)
Definition createProject (this : KeyEnv) (teamId name : string) : Async JSValue :=
  let* response :=
    request this "POST" "/api/v1/projects"
      (VObj [("team_id", VStr teamId); ("name", VStr name)]) in
  eval (prop response "data").

(** [async listEnvironments(projectId)] *)
Definition listEnvironments (this : KeyEnv) (projectId : string) : Async JSValue :=
  let* response :=
    request this "GET" (projects_path projectId +:+ "/environments") VUndefined in
  eval (prop response "data").

(** [async createEnvironment(projectId, name, inheritsFrom?)] *)
Definition createEnvironment (this : KeyEnv) (projectId name : string)
    (inheritsFrom : option string) : Async JSValue :=
  let* response :=
    request this "POST" (projects_path projectId +:+ "/environments")
      (VObj [("name", VStr name); ("inherits_from", optional inheritsFrom)]) in
  eval (prop response "data").

(** [async listSecrets(projectId, environment)] *)
Definition listSecrets (this : KeyEnv) (projectId environment : string) : Async JSValue :=
  let* response :=
    request this "GET" (environment_path projectId environment +:+ "/secrets")
      VUndefined in
  eval (prop response "data").

(** [async getSecret(projectId, environment, key)] *)
Definition getSecret (this : KeyEnv) (projectId environment key : string) : Async JSValue :=
  let* response :=
    request this "GET"
      (environment_path projectId environment +:+ "/secrets/" +:+ key) VUndefined in
  eval (prop response "data").

(** [async listPermissions(projectId, environment)] *)
Definition listPermissions (this : KeyEnv) (projectId environment : string) : Async JSValue :=
  let* response :=
    request this "GET" (environment_path projectId environment +:+ "/permissions")
      VUndefined in
  eval (prop response "data").

(** [async getProjectDefaults(projectId)] *)
Definition getProjectDefaults (this : KeyEnv) (projectId : string) : Async JSValue :=
  let* response :=
    request this "GET" (projects_path projectId +:+ "/permissions/defaults")
      VUndefined in
  eval (prop response "data").







(** * Definitions used by the further statements *)

(** Every request that [op] sends goes to a path under the base URL of the
    client and carries exactly three headers: the token of the client as a
    bearer token, the JSON content type and the user agent of the SDK; [op]
    keeps the requests sent before it and does not change the network. *)
Definition sends_as {A} (this : KeyEnv) (op : Async A) : Prop :=
  forall w, exists requests,
    sent (op w).2 = sent w ++ requests /\
    Forall (fun r =>
              headers r = [("Authorization", "Bearer " +:+ token this);
                           ("Content-Type", "application/json");
                           ("User-Agent", "keyenv-node/1.0.0")] /\
              exists path, url r = baseUrl this +:+ path) requests /\
    network (op w).2 = network w.

(** [op] sends exactly one request, [r], whatever happens. *)
Definition sends_once {A} (op : Async A) (r : Request) : Prop :=
  forall w, sent (op w).2 = sent w ++ [r].

(** No entry of the cache expires later than TTL seconds after the current
    reading of the clock. *)
Definition within_ttl (this : KeyEnv) (w : World) : Prop :=
  forall key entry,
    secretsCache w !! key = Some entry ->
    expiresAt entry <= clock w + cacheTtl this * 1000.

(** The clock never goes back while a request is under way, whatever has
    been sent before. *)
Definition clock_goes_on (w : World) : Prop :=
  forall r, clock w <= (network w (sent w) r).1.

(** How often [c] occurs in [s]. *)
Fixpoint count_char (c : ascii) (s : string) : nat :=
  match s with
  | EmptyString => 0
  | String a rest => (if Ascii.eqb a c then 1 else 0) + count_char c rest
  end.

(** [s] ends with a slash. *)
Fixpoint ends_with_slash (s : string) : bool :=
  match s with
  | EmptyString => false
  | String c EmptyString => Ascii.eqb c "/"
  | String _ rest => ends_with_slash rest
  end.

(** [n] slashes. *)
Fixpoint slashes (n : nat) : string :=
  match n with
  | O => EmptyString
  | S m => String "/" (slashes m)
  end.

(** With an ok response of status 204, [op] throws the [TypeError] of
    reading [data] of [undefined]. *)
Definition no_content_throws {A} (this : KeyEnv) (op : Async A)
    (method path : string) (body : JSValue) : Prop :=
  forall w response w',
    fetch (request_init this method path body) w = (Return response, w') ->
    ok response = true -> status response = 204 ->
    (op w).1 = Throw (cannot_read "undefined" "data").

(** With an ok response of status 204, [op] resolves. *)
Definition no_content_resolves (this : KeyEnv) (op : Async unit)
    (method path : string) (body : JSValue) : Prop :=
  forall w response w',
    fetch (request_init this method path body) w = (Return response, w') ->
    ok response = true -> status response = 204 ->
    (op w).1 = Return tt.

(** After a call of [op] that succeeds there is no entry under the key of
    the pair, and the next [exportSecrets] for the pair, at whatever time,
    sends its request. *)
Definition forces_refetch {A} (this : KeyEnv) (projectId environment : string)
    (op : Async A) : Prop :=
  forall w a w' t,
    op w = (Return a, w') ->
    secretsCache w' !! getCacheKey projectId environment = None /\
    sent (exportSecrets this projectId environment (at_time t w')).2 =
      sent w' ++ [request_init this "GET" (export_path projectId environment) VUndefined].

(** [op] changes no entry but the one under the key of the pair, and when
    it fails with a [KeyEnvError] it has changed none. *)
Definition touches_only {A} (projectId environment : string) (op : Async A) : Prop :=
  (forall w k,
     k <> getCacheKey projectId environment ->
     secretsCache (op w).2 !! k = secretsCache w !! k) /\
  (forall w e w', op w = (Throw (ThrownKeyEnvError e), w') ->
     secretsCache w' = secretsCache w).

(** [op] keeps [within_ttl] when the clock goes on. *)
Definition keeps_within_ttl {A} (this : KeyEnv) (op : Async A) : Prop :=
  forall w, within_ttl this w -> clock_goes_on w -> within_ttl this (op w).2.

(** * Verification *)

(** ** The constructor *)

Example new_KeyEnv_defaults :
  new_KeyEnv (fun _ => 0)
    {| options_token := "test-token"; options_baseUrl := Some "http://localhost:8081//";
       options_timeout := None; options_cacheTtl := None |}
    {| KEYENV_API_URL := None; KEYENV_CACHE_TTL := None |} =
  Return {| token := "test-token"; baseUrl := "http://localhost:8081";
            timeout := 30000; cacheTtl := 0 |}.
Proof. reflexivity. Qed.

Example new_KeyEnv_without_token :
  new_KeyEnv (fun _ => 0)
    {| options_token := ""; options_baseUrl := None;
       options_timeout := None; options_cacheTtl := None |}
    {| KEYENV_API_URL := None; KEYENV_CACHE_TTL := None |} =
  Throw (ThrownError "Error" "KeyEnv token is required").
Proof. reflexivity. Qed.

(** ** The request pipeline *)

Lemma fetch_spec r w :
  fetch r w =
  ((network w (sent w) r).2,
   {| secretsCache := secretsCache w; clock := (network w (sent w) r).1;
      sent := sent w ++ [r]; network := network w |}).
Proof. unfold fetch. by destruct (network w (sent w) r). Qed.

Lemma request_catch_world {A} error w :
  (@request_catch A error w).2 = w.
Proof.
  destruct error as [e|name msg|v]; simpl; try done.
  by destruct (String.eqb name "AbortError").
Qed.

(** [request] leaves the world as its one call of [fetch] leaves it. *)
Lemma request_world this method path body w :
  (request this method path body w).2 =
  (fetch (request_init this method path body) w).2.
Proof.
  unfold request.
  destruct (fetch _ w) as [[response|error] w'] eqn:Hfetch; simpl.
  - destruct (ok response); simpl.
    + by destruct (status response =? 204).
    + run. destruct (json response) as [parsed|?]; simpl.
      * destruct parsed; simpl; try done.
      * done.
  - apply request_catch_world.
Qed.

(** One call of [request] is one call of [fetch]; the cache is not
    touched. *)
Lemma request_frame this method path body w c w' :
  request this method path body w = (c, w') ->
  secretsCache w' = secretsCache w /\
  sent w' = (sent w ++ [request_init this method path body])%list /\
  network w' = network w.
Proof.
  intros H. pose proof (request_world this method path body w) as Hw.
  rewrite H, fetch_spec in Hw. simpl in Hw. by subst w'.
Qed.

(** What [request] does depends on the network and on the requests already
    sent, not on the cache. *)
Lemma request_with_cache f this method path body w :
  request this method path body (with_cache f w) =
  ((request this method path body w).1,
   with_cache f (request this method path body w).2).
Proof.
  unfold request. rewrite !fetch_spec. simpl.
  destruct (network w (sent w) _) as [t [response|error]]; simpl.
  - destruct (ok response); simpl.
    + by destruct (status response =? 204).
    + run. destruct (json response) as [parsed|?]; simpl; [|done].
      destruct parsed; simpl; done.
  - destruct error as [e|name msg|v]; simpl; try done.
    by destruct (String.eqb name "AbortError").
Qed.

(** The outcomes that [request] brings to one form.  An ok response with
    status 204 resolves to no value.  Any other ok response whose body
    parses as JSON resolves to the parsed body.  A response that is not ok
    and whose body parses to a JSON value other than [null] raises a
    [KeyEnvError] with the status of the response and the [error], [code]
    and [details] of the body; when the body does not parse, the message is
    the status text.  A [fetch] rejected with an [AbortError] raises a
    [KeyEnvError] with status 408, and a [fetch] rejected with any other
    [Error] raises a [KeyEnvError] with status 0 and the message of that
    error. *)
Theorem request_normalizes this method path body w :
  let r := request_init this method path body in
  (forall response w', fetch r w = (Return response, w') ->
     (ok response = true -> status response = 204 ->
        request this method path body w = (Return VUndefined, w')) /\
     (ok response = true -> status response <> 204 ->
        forall parsed, json response = Return parsed ->
        request this method path body w = (Return parsed, w')) /\
     (ok response = false ->
        forall parsed, json response = Return parsed ->
        parsed <> VNull -> parsed <> VUndefined ->
        exists error code details,
          prop parsed "error" = Return error /\
          prop parsed "code" = Return code /\
          prop parsed "details" = Return details /\
          request this method path body w =
            (Throw (ThrownKeyEnvError
                      (mkKeyEnvError error (status response) code details)), w')) /\
     (ok response = false ->
        forall failure, json response = Throw failure ->
        request this method path body w =
          (Throw (typed_error (VStr (statusText response)) (status response)), w'))) /\
  (forall msg w', fetch r w = (Throw (ThrownError "AbortError" msg), w') ->
     request this method path body w =
       (Throw (typed_error (VStr "Request timeout") 408), w')) /\
  (forall name msg w', name <> "AbortError" ->
     fetch r w = (Throw (ThrownError name msg), w') ->
     request this method path body w = (Throw (typed_error (VStr msg) 0), w')).
Proof.
  intros r. subst r. unfold request. split; [|split].
  - intros response w' ->. split; [|split; [|split]].
    + intros -> ->. reflexivity.
    + intros -> H204 parsed ->. simpl.
      by destruct (Z.eqb_spec (status response) 204).
    + intros -> parsed -> Hnull Hundef. simpl.
      destruct parsed as [| |b|n|s|items|props]; try done;
        (eexists _, _, _; repeat split; reflexivity).
    + intros -> failure ->. reflexivity.
  - intros msg w' ->. reflexivity.
  - intros name msg w' Hname ->. simpl.
    by destruct (String.eqb_spec name "AbortError").
Qed.

Lemma request_normalizes_witness :
  let this := example_client 0 in
  request this "GET" "/x" VUndefined
    (new_world (always 5 (Return (json_response 200 (VObj [("data", VNum 1)]))))) =
    (Return (VObj [("data", VNum 1)]),
     {| secretsCache := ∅; clock := 5;
        sent := [request_init this "GET" "/x" VUndefined];
        network := always 5 (Return (json_response 200 (VObj [("data", VNum 1)]))) |}) /\
  (request this "GET" "/x" VUndefined
     (new_world (always 5 (Return (json_response 401 (VObj [("error", VStr "Invalid token")])))))).1 =
    Throw (typed_error (VStr "Invalid token") 401) /\
  (request this "GET" "/x" VUndefined
     (new_world (always 5 (Throw (ThrownError "TypeError" "fetch failed"))))).1 =
    Throw (typed_error (VStr "fetch failed") 0).
Proof.
  intros this. split; [|split].
  - pose proof (request_normalizes this "GET" "/x" VUndefined
      (new_world (always 5 (Return (json_response 200 (VObj [("data", VNum 1)])))))) as [H _].
    specialize (H _ _ eq_refl) as (_ & H & _).
    apply (H eq_refl); [discriminate | reflexivity].
  - pose proof (request_normalizes this "GET" "/x" VUndefined
      (new_world (always 5 (Return (json_response 401 (VObj [("error", VStr "Invalid token")])))))) as [H _].
    specialize (H _ _ eq_refl) as (_ & _ & H & _).
    destruct (H eq_refl _ eq_refl) as (error & code & details & He & Hc & Hd & ->);
      [discriminate | discriminate |].
    simpl in He, Hc, Hd. by inversion He; inversion Hc; inversion Hd.
  - pose proof (request_normalizes this "GET" "/x" VUndefined
      (new_world (always 5 (Throw (ThrownError "TypeError" "fetch failed"))))) as (_ & _ & H).
    by rewrite (H "TypeError" "fetch failed" _ ltac:(discriminate) eq_refl).
Defined.

(** C7.  Two outcomes that [request] does not normalize, against what its
    own code sets out to do.  The body of an ok response (status
    200) that is not JSON: the promise of [response.json()] is returned
    from inside the [try] without being awaited, so its rejection passes by
    the [catch] clause that types every other error, and [request] neither
    resolves nor raises a [KeyEnvError]; the same body on a response that
    is not ok, where [response.json()] is awaited, does end as a
    [KeyEnvError] with the status of the response.  And the JSON body
    [null] of a response that is not ok (status 500): reading
    [errorData.error] throws while the [KeyEnvError] with the status of the
    response is being built, and the [catch] clause turns that [TypeError]
    into a [KeyEnvError] with status 0; a body with an [error] field on
    the same response ends as a [KeyEnvError] with status 500. *)
Lemma request_not_normalized :
  let this := example_client 0 in
  let not_json := ThrownError "SyntaxError" "Unexpected end of JSON input" in
  let ok_not_json :=
    {| ok := true; status := 200; statusText := "OK"; json := Throw not_json |} in
  let failed_not_json :=
    {| ok := false; status := 500; statusText := "Internal Server Error";
       json := Throw not_json |} in
  (request this "GET" "/x" VUndefined (new_world (always 5 (Return ok_not_json)))).1 =
    Throw not_json /\
  (forall parsed,
     (request this "GET" "/x" VUndefined (new_world (always 5 (Return ok_not_json)))).1
     <> Return parsed) /\
  (forall e,
     (request this "GET" "/x" VUndefined (new_world (always 5 (Return ok_not_json)))).1
     <> Throw (ThrownKeyEnvError e)) /\
  (request this "GET" "/x" VUndefined (new_world (always 5 (Return failed_not_json)))).1 =
    Throw (typed_error (VStr "Internal Server Error") 500) /\
  (request this "GET" "/x" VUndefined
     (new_world (always 5 (Return (json_response 500 VNull))))).1 =
    Throw (typed_error (VStr "Cannot read properties of null (reading 'error')") 0) /\
  (forall e,
     (request this "GET" "/x" VUndefined
        (new_world (always 5 (Return (json_response 500 VNull))))).1 =
       Throw (ThrownKeyEnvError e) ->
     err_status e <> 500) /\
  (request this "GET" "/x" VUndefined
     (new_world (always 5 (Return (json_response 500 (VObj [("error", VStr "Database down")])))))).1 =
    Throw (typed_error (VStr "Database down") 500).
Proof.
  simpl. split_and!; try done.
  intros e. vm_compute. intros [= <-]. done.
Qed.

(** ** [exportSecrets] and the cache *)

Lemma with_cache_id f w :
  f (secretsCache w) = secretsCache w -> with_cache f w = w.
Proof. destruct w. unfold with_cache. simpl. by intros ->. Qed.

Lemma with_cache_compose f g w :
  with_cache f (with_cache g w) = with_cache (fun m => f (g m)) w.
Proof. reflexivity. Qed.

Lemma exportSecrets_hit this projectId environment w entry :
  fresh_entry this projectId environment w = Some entry ->
  exportSecrets this projectId environment w = (Return (secrets entry), w).
Proof.
  unfold fresh_entry, exportSecrets. run.
  destruct (0 <? cacheTtl this); [|done].
  destruct (secretsCache w !! _) as [cached|]; [|done].
  destruct (clock w <? expiresAt cached); [|done].
  by intros [= ->].
Qed.

(** Without a fresh entry [exportSecrets] sends its request; an expired
    entry is gone by then, and the [data] of the answer is stored when
    caching is on. *)
Lemma exportSecrets_miss this projectId environment w :
  fresh_entry this projectId environment w = None ->
  let key := getCacheKey projectId environment in
  let answer := request this "GET" (export_path projectId environment) VUndefined w in
  let evict (x : World) :=
    if 0 <? cacheTtl this then with_cache (delete key) x else x in
  exportSecrets this projectId environment w =
    match answer.1 with
    | Throw error => (Throw error, evict answer.2)
    | Return response =>
        match prop response "data" with
        | Throw error => (Throw error, evict answer.2)
        | Return data =>
            (Return data,
             if 0 <? cacheTtl this
             then with_cache
                    (insert key {| secrets := data;
                                   expiresAt := clock answer.2 + cacheTtl this * 1000 |})
                    answer.2
             else answer.2)
        end
    end.
Proof.
  intros Hfresh key answer evict.
  unfold fresh_entry in Hfresh. fold key in Hfresh.
  assert (exportSecrets this projectId environment w =
    bind (request this "GET" (export_path projectId environment) VUndefined)
      (fun response =>
         bind (if 0 <? cacheTtl this
               then bind (eval (prop response "data")) (fun data =>
                    bind Date_now (fun t =>
                    cache_set key {| secrets := data;
                                     expiresAt := t + cacheTtl this * 1000 |}))
               else ret tt)
           (fun _ => eval (prop response "data")))
      (evict w)) as ->.
  { unfold exportSecrets, evict. fold key. run.
    destruct (0 <? cacheTtl this); [|done].
    destruct (secretsCache w !! key) as [cached|] eqn:Hkey; simpl.
    - by destruct (clock w <? expiresAt cached).
    - rewrite (with_cache_id (delete key)); [done|]. by apply delete_id. }
  run.
  assert (request this "GET" (export_path projectId environment) VUndefined (evict w)
          = (answer.1, evict answer.2)) as ->.
  { unfold evict, answer. destruct (0 <? cacheTtl this).
    - apply request_with_cache.
    - by destruct (request _ _ _ _ w). }
  destruct (answer.1) as [response|error]; [|done].
  unfold evict. destruct (0 <? cacheTtl this); simpl.
  - destruct (prop response "data") as [data|error]; [|done].
    simpl. rewrite with_cache_compose. f_equal.
    unfold with_cache. simpl. f_equal. apply insert_delete_eq.
  - by destruct (prop response "data").
Qed.

(** ** Envelopes *)

(** C1, as amended.  Every successful call of [exportSecrets] returns
    either the list of an unexpired cache entry or the value of the [data]
    field of the response body; every successful call of [getSecretHistory]
    returns the value of the [data] field of the response body; and
    [getMyPermissions] returns the response body itself, the top-level
    object that carries [permissions] and [is_team_admin]. *)
Theorem unwrapping this projectId environment key w v :
  ((exportSecrets this projectId environment w).1 = Return v <->
     (exists entry,
        fresh_entry this projectId environment w = Some entry /\ v = secrets entry) \/
     (fresh_entry this projectId environment w = None /\
      exists response w1,
        request this "GET" (export_path projectId environment) VUndefined w
          = (Return response, w1) /\
        prop response "data" = Return v)) /\
  ((getSecretHistory this projectId environment key w).1 = Return v <->
     exists response w1,
       request this "GET" (history_path projectId environment key) VUndefined w
         = (Return response, w1) /\
       prop response "data" = Return v) /\
  ((getMyPermissions this projectId w).1 = Return v <->
     exists w1,
       request this "GET" (my_permissions_path projectId) VUndefined w = (Return v, w1)).
Proof.
  split; [|split].
  - destruct (fresh_entry this projectId environment w) as [entry|] eqn:Hfresh.
    + rewrite (exportSecrets_hit _ _ _ _ _ Hfresh). simpl. split.
      * intros [= <-]. left. eauto.
      * by intros [(entry' & [= <-] & ->)|[? _]].
    + rewrite (exportSecrets_miss _ _ _ _ Hfresh).
      destruct (request this "GET" (export_path projectId environment) VUndefined w)
        as [[response|error] w1]; simpl.
      * split.
        -- intros Hrun. right. split; [done|]. exists response, w1. split; [done|].
           destruct (prop response "data"); by simplify_eq/=.
        -- intros [(entry & ? & _)|(_ & response' & w1' & [= <- <-] & ->)]; done.
      * split; [done|]. by intros [(entry & ? & _)|(_ & response' & w1' & ? & _)].
  - unfold getSecretHistory, history_path. run.
    destruct (request _ _ _ _ w) as [[response|error] w1]; simpl.
    + split.
      * intros Hdata. eauto.
      * by intros (response' & w1' & [= <- <-] & ->).
    + split; [done|]. by intros (response' & w1' & [=] & _).
  - unfold getMyPermissions, my_permissions_path.
    destruct (request _ _ _ _ w) as [c w1]; simpl. split.
    + intros ->. eauto.
    + by intros (w1' & [= -> _]).
Qed.

Lemma unwrapping_witness :
  let this := example_client 0 in
  let exported := VArr [secret_object "KEY1" "value1"] in
  let w := new_world (always 5 (Return (json_response 200 (VObj [("data", exported)])))) in
  exportSecrets this "proj-1" "production" w =
    (Return exported,
     {| secretsCache := ∅; clock := 5;
        sent := [request_init this "GET" (export_path "proj-1" "production") VUndefined];
        network := network w |}) /\
  exists response w1,
    request this "GET" (export_path "proj-1" "production") VUndefined w
      = (Return response, w1) /\
    prop response "data" = Return exported.
Proof.
  intros this exported w.
  assert (exportSecrets this "proj-1" "production" w =
    (Return exported,
     {| secretsCache := ∅; clock := 5;
        sent := [request_init this "GET" (export_path "proj-1" "production") VUndefined];
        network := network w |})) as Hrun by reflexivity.
  split; [exact Hrun|].
  destruct (unwrapping this "proj-1" "production" "KEY1" w exported) as (Hexport & _).
  destruct (proj1 Hexport) as [(entry & Hfresh & _)|[_ Hbody]];
    [by rewrite Hrun|discriminate Hfresh|exact Hbody].
Defined.

(** C1 as stated fails: with the body [{ secrets: [...], history: [...] }],
    the envelope the claim describes, both calls succeed and return
    [undefined], not the lists under [secrets] and [history]. *)
Lemma unwrapping_counterexample :
  let this := example_client 0 in
  let listed := VArr [secret_object "KEY1" "value1"] in
  let past := VArr [VObj [("id", VStr "h1"); ("value", VStr "old"); ("version", VNum 1)]] in
  let response := VObj [("secrets", listed); ("history", past)] in
  let w := new_world (always 5 (Return (json_response 200 response))) in
  prop response "secrets" = Return listed /\
  (exportSecrets this "proj-1" "production" w).1 = Return VUndefined /\
  (exportSecrets this "proj-1" "production" w).1 <> Return listed /\
  prop response "history" = Return past /\
  (getSecretHistory this "proj-1" "production" "KEY1" w).1 = Return VUndefined /\
  (getSecretHistory this "proj-1" "production" "KEY1" w).1 <> Return past.
Proof. simpl. repeat split; done. Qed.

Lemma fresh_entry_Some this projectId environment w entry :
  fresh_entry this projectId environment w = Some entry <->
  0 < cacheTtl this /\
  secretsCache w !! getCacheKey projectId environment = Some entry /\
  clock w < expiresAt entry.
Proof.
  unfold fresh_entry.
  destruct (Z.ltb_spec 0 (cacheTtl this)); [|split; [done|lia]].
  destruct (secretsCache w !! _) as [cached|]; [|split; [done|by intros (_ & ? & _)]].
  destruct (Z.ltb_spec (clock w) (expiresAt cached)).
  - split; [by intros [= ->]|by intros (_ & [= ->] & _)].
  - split; [done|]. intros (_ & [= ->] & ?). lia.
Qed.

Lemma fresh_entry_None this projectId environment w :
  fresh_entry this projectId environment w = None <->
  cacheTtl this <= 0 \/
  secretsCache w !! getCacheKey projectId environment = None \/
  exists entry,
    secretsCache w !! getCacheKey projectId environment = Some entry /\
    expiresAt entry <= clock w.
Proof.
  unfold fresh_entry.
  destruct (Z.ltb_spec 0 (cacheTtl this)); [|split; [auto|done]].
  destruct (secretsCache w !! _) as [cached|]; [|split; [auto|done]].
  destruct (Z.ltb_spec (clock w) (expiresAt cached)).
  - split; [done|]. intros [?|[?|(entry & [= <-] & ?)]]; [lia|done|lia].
  - split; [|done]. intros _. right. right. eauto.
Qed.

(** A call of [exportSecrets] that finds no fresh entry sends exactly one
    request. *)
Lemma exportSecrets_miss_sent this projectId environment w :
  fresh_entry this projectId environment w = None ->
  sent (exportSecrets this projectId environment w).2 =
    (sent w ++ [request_init this "GET" (export_path projectId environment) VUndefined])%list /\
  clock (exportSecrets this projectId environment w).2 =
    (network w (sent w)
       (request_init this "GET" (export_path projectId environment) VUndefined)).1.
Proof.
  intros Hfresh. rewrite (exportSecrets_miss _ _ _ _ Hfresh).
  pose proof (request_world this "GET" (export_path projectId environment) VUndefined w) as Hw.
  rewrite fetch_spec in Hw. simpl in Hw.
  destruct (request this "GET" (export_path projectId environment) VUndefined w)
    as [c w1]. simpl in *. subst w1.
  destruct c as [response|error]; [destruct (prop response "data")|];
    destruct (0 <? cacheTtl this); done.
Qed.

Lemma app_singleton_ne {A} (l : list A) (x : A) : (l ++ [x])%list <> l.
Proof.
  intros H. apply (f_equal length) in H. rewrite length_app in H. simpl in H. lia.
Qed.

(** C2.  With a TTL above 0, [exportSecrets] answers from the cache, sending
    no request, exactly when the pair's entry exists and expires strictly
    after the current time; an entry that has expired is removed and the
    request is sent; and after a fetch that succeeds the cache holds the
    result under the pair's key, expiring TTL seconds after the time of the
    fetch.  With a TTL of 0 or less every call sends a request and leaves the
    cache as it was; and 0 is the TTL of a client constructed without the
    option and without the environment variable. *)
Theorem exportSecrets_cache this projectId environment w :
  let key := getCacheKey projectId environment in
  let r := request_init this "GET" (export_path projectId environment) VUndefined in
  let after := exportSecrets this projectId environment w in
  (0 < cacheTtl this ->
     ((exists entry, secretsCache w !! key = Some entry /\ clock w < expiresAt entry)
        <-> sent after.2 = sent w) /\
     (forall entry,
        secretsCache w !! key = Some entry -> clock w < expiresAt entry ->
        after = (Return (secrets entry), w)) /\
     (forall entry,
        secretsCache w !! key = Some entry -> expiresAt entry <= clock w ->
        sent after.2 = (sent w ++ [r])%list /\
        after = exportSecrets this projectId environment (with_cache (delete key) w) /\
        (forall error, after.1 = Throw error ->
           secretsCache after.2 = delete key (secretsCache w))) /\
     (forall data,
        sent after.2 <> sent w -> after.1 = Return data ->
        clock after.2 = (network w (sent w) r).1 /\
        secretsCache after.2 =
          <[key := {| secrets := data;
                      expiresAt := clock after.2 + cacheTtl this * 1000 |}]>
            (secretsCache w))) /\
  (cacheTtl this <= 0 ->
     sent after.2 = (sent w ++ [r])%list /\
     secretsCache after.2 = secretsCache w) /\
  (forall parseInt options env client,
     options_cacheTtl options = None -> KEYENV_CACHE_TTL env = None ->
     new_KeyEnv parseInt options env = Return client -> cacheTtl client = 0).
Proof.
  intros key r after.
  assert (forall parseInt options env client,
     options_cacheTtl options = None -> KEYENV_CACHE_TTL env = None ->
     new_KeyEnv parseInt options env = Return client -> cacheTtl client = 0) as Hnew.
  { intros parseInt options env client Hoption Henv. unfold new_KeyEnv.
    destruct (negb _); [done|]. rewrite Hoption, Henv. by intros [= <-]. }
  rewrite (and_assoc _ _ _). split; [split|exact Hnew]; clear Hnew.
  - intros Httl.
    assert (forall data, fresh_entry this projectId environment w = None ->
              after.1 = Return data ->
              secretsCache after.2 =
                <[key := {| secrets := data;
                            expiresAt := clock after.2 + cacheTtl this * 1000 |}]>
                  (secretsCache w)) as Hstore.
    { intros data Hfresh. unfold after.
      rewrite (exportSecrets_miss _ _ _ _ Hfresh).
      pose proof (request_frame this "GET" (export_path projectId environment)
                    VUndefined w) as Hframe.
      destruct (request this "GET" (export_path projectId environment) VUndefined w)
        as [c w1]. destruct (Hframe _ _ eq_refl) as (Hcache & _). simpl.
      destruct (Z.ltb_spec 0 (cacheTtl this)); [|lia].
      destruct c as [response|error]; [|done].
      destruct (prop response "data"); [|done].
      simpl. intros [= ->]. by rewrite Hcache. }
    split; [|split; [|split]].
    + split.
      * intros (entry & Hkey & Hnow).
        assert (fresh_entry this projectId environment w = Some entry) as Hfresh
          by by apply fresh_entry_Some.
        unfold after. by rewrite (exportSecrets_hit _ _ _ _ _ Hfresh).
      * intros Hsent.
        destruct (fresh_entry this projectId environment w) as [entry|] eqn:Hfresh.
        -- apply fresh_entry_Some in Hfresh as (_ & ? & ?). eauto.
        -- apply exportSecrets_miss_sent in Hfresh as [Hfresh _].
           unfold after in Hsent. rewrite Hfresh in Hsent.
           by apply app_singleton_ne in Hsent.
    + intros entry Hkey Hnow. apply exportSecrets_hit. by apply fresh_entry_Some.
    + intros entry Hkey Hnow.
      assert (fresh_entry this projectId environment w = None) as Hfresh.
      { apply fresh_entry_None. right. right. eauto. }
      split; [by apply exportSecrets_miss_sent|]. split.
      * assert (fresh_entry this projectId environment (with_cache (delete key) w) = None)
          as Hfresh'.
        { apply fresh_entry_None. right. left. simpl. apply lookup_delete_eq. }
        unfold after.
        rewrite (exportSecrets_miss _ _ _ _ Hfresh), (exportSecrets_miss _ _ _ _ Hfresh').
        rewrite request_with_cache. simpl.
        destruct (request this "GET" (export_path projectId environment) VUndefined w)
          as [c w1]. simpl.
        destruct (Z.ltb_spec 0 (cacheTtl this)); [|lia].
        assert (with_cache (delete (getCacheKey projectId environment))
                  (with_cache (delete key) w1) = with_cache (delete key) w1) as Hdel.
        { unfold with_cache, key. simpl. f_equal. apply delete_delete_eq. }
        destruct c as [response|error]; [|by rewrite Hdel].
        destruct (prop response "data"); [|by rewrite Hdel].
        f_equal. unfold with_cache, key. simpl. f_equal.
        by rewrite !insert_delete_eq.
      * intros error. unfold after.
        rewrite (exportSecrets_miss _ _ _ _ Hfresh).
        pose proof (request_frame this "GET" (export_path projectId environment)
                      VUndefined w) as Hframe.
        destruct (request this "GET" (export_path projectId environment) VUndefined w)
          as [c w1]. destruct (Hframe _ _ eq_refl) as (Hcache & _). simpl.
        destruct (Z.ltb_spec 0 (cacheTtl this)); [|lia].
        destruct c as [response|error']; [destruct (prop response "data")|];
          simpl; try done; by rewrite Hcache.
    + intros data Hsent Hdata.
      destruct (fresh_entry this projectId environment w) as [entry|] eqn:Hfresh.
      * unfold after in Hsent.
        by rewrite (exportSecrets_hit _ _ _ _ _ Hfresh) in Hsent.
      * split; [by apply exportSecrets_miss_sent|by apply Hstore].
  - intros Httl.
    assert (fresh_entry this projectId environment w = None) as Hfresh.
    { apply fresh_entry_None. by left. }
    split; [by apply exportSecrets_miss_sent|].
    unfold after. rewrite (exportSecrets_miss _ _ _ _ Hfresh).
    pose proof (request_frame this "GET" (export_path projectId environment)
                  VUndefined w) as Hframe.
    destruct (request this "GET" (export_path projectId environment) VUndefined w)
      as [c w1]. destruct (Hframe _ _ eq_refl) as (Hcache & _). simpl.
    destruct (Z.ltb_spec 0 (cacheTtl this)); [lia|].
    destruct c as [response|error']; [destruct (prop response "data")|]; done.
Qed.

Lemma exportSecrets_cache_witness :
  let this := example_client 300 in
  let exported := VArr [secret_object "KEY1" "value1"] in
  let r := request_init this "GET" (export_path "proj-1" "production") VUndefined in
  let w := new_world (always 1200 (Return (json_response 200 (VObj [("data", exported)])))) in
  let cached :=
    {| secretsCache :=
         <["proj-1:production" := {| secrets := exported; expiresAt := 301200 |}]> ∅;
       clock := 1200; sent := [r]; network := network w |} in
  exportSecrets this "proj-1" "production" w = (Return exported, cached) /\
  exportSecrets this "proj-1" "production" (at_time 301199 cached)
    = (Return exported, at_time 301199 cached) /\
  sent (exportSecrets this "proj-1" "production" (at_time 301200 cached)).2 = [r; r] /\
  sent (exportSecrets (example_client 0) "proj-1" "production" cached).2 = [r; r] /\
  secretsCache (exportSecrets (example_client 0) "proj-1" "production" cached).2
    = secretsCache cached.
Proof.
  intros this exported r w cached.
  assert (0 < cacheTtl this) as Httl by (simpl; lia).
  split; [|split; [|split]].
  - destruct (exportSecrets_cache this "proj-1" "production" w) as [Hon _].
    destruct (Hon Httl) as (_ & _ & _ & Hstore).
    destruct (Hstore exported) as [Hclock Hcache]; [discriminate|reflexivity|].
    reflexivity.
  - destruct (exportSecrets_cache this "proj-1" "production" (at_time 301199 cached))
      as [Hon _].
    destruct (Hon Httl) as (_ & Hhit & _).
    apply (Hhit {| secrets := exported; expiresAt := 301200 |}); [reflexivity|simpl; lia].
  - destruct (exportSecrets_cache this "proj-1" "production" (at_time 301200 cached))
      as [Hon _].
    destruct (Hon Httl) as (_ & _ & Hexpired & _).
    destruct (Hexpired {| secrets := exported; expiresAt := 301200 |}) as [Hsent _];
      [reflexivity|simpl; lia|].
    exact Hsent.
  - destruct (exportSecrets_cache (example_client 0) "proj-1" "production" cached)
      as (_ & Hoff & _).
    apply Hoff. simpl. lia.
Defined.

(** ** Strings: prefixes and the cache key *)

Lemma append_nil (s : string) : "" +:+ s = s.
Proof. reflexivity. Qed.

Lemma append_cons (c : ascii) (a b : string) :
  String c a +:+ b = String c (a +:+ b).
Proof. reflexivity. Qed.

Lemma prefix_nil (s : string) : String.prefix "" s = true.
Proof. by destruct s. Qed.

Lemma prefix_cons (c d : ascii) (a s : string) :
  String.prefix (String c a) (String d s) =
  if ascii_dec c d then String.prefix a s else false.
Proof. reflexivity. Qed.

Lemma prefix_app (a b : string) : String.prefix a (a +:+ b) = true.
Proof.
  induction a as [|c a IH]; [apply prefix_nil|].
  rewrite append_cons, prefix_cons. by destruct (ascii_dec c c).
Qed.

Lemma prefix_exists (a s : string) :
  String.prefix a s = true <-> exists b, s = a +:+ b.
Proof.
  split.
  - revert s. induction a as [|c a IH]; intros s.
    + intros _. by exists s.
    + destruct s as [|d s]; [done|]. rewrite prefix_cons.
      destruct (ascii_dec c d) as [->|]; [|done].
      intros [b ->]%IH. by exists b.
  - intros [b ->]. apply prefix_app.
Qed.

Lemma app_assoc_string (a b c : string) : (a +:+ b) +:+ c = a +:+ (b +:+ c).
Proof.
  induction a as [|x a IH]; [done|]. by rewrite !append_cons, IH.
Qed.

Lemma startsWith_getCacheKey projectId environment :
  startsWith (getCacheKey projectId environment) (projectId +:+ ":") = true.
Proof.
  unfold startsWith, getCacheKey. apply prefix_exists.
  exists environment. by rewrite app_assoc_string.
Qed.

(** ** [clearCache] *)

Lemma delete_startsWith_fold start (keys : list string) (m : gmap string CacheEntry) k :
  foldr (fun key m => if startsWith key start then delete key m else m) m keys !! k =
  if startsWith k start && bool_decide (k ∈ keys) then None else m !! k.
Proof.
  induction keys as [|key keys IH]; simpl.
  - by rewrite andb_false_r.
  - destruct (startsWith key start) eqn:Hkey.
    + destruct (decide (key = k)) as [->|Hne].
      * rewrite lookup_delete_eq, Hkey. simpl.
        rewrite bool_decide_eq_true_2; [done|]. apply list_elem_of_here.
      * rewrite lookup_delete_ne, IH by done.
        destruct (startsWith k start); simpl; [|done].
        destruct (decide (k ∈ keys)) as [Hin|Hnin].
        -- rewrite !bool_decide_eq_true_2; [done| |done]. by apply list_elem_of_further.
        -- rewrite !bool_decide_eq_false_2; [done| |done].
           intros [?|?]%elem_of_cons; congruence.
    + rewrite IH. destruct (startsWith k start) eqn:Hk; simpl; [|done].
      destruct (decide (k ∈ keys)) as [Hin|Hnin].
      * rewrite !bool_decide_eq_true_2; [done| |done]. by apply list_elem_of_further.
      * rewrite !bool_decide_eq_false_2; [done| |done].
        intros [->|?]%elem_of_cons; congruence.
Qed.

(** The loop of [clearCache(projectId)] deletes the keys that start with
    [start] and keeps the others. *)
Lemma cache_delete_startsWith_lookup start w k :
  secretsCache (cache_delete_startsWith start w).2 !! k =
  if startsWith k start then None else secretsCache w !! k.
Proof.
  unfold cache_delete_startsWith. simpl. rewrite delete_startsWith_fold.
  destruct (startsWith k start); simpl; [|done].
  destruct (decide (k ∈ (map_to_list (secretsCache w)).*1)) as [Hin|Hnin].
  - by rewrite bool_decide_eq_true_2.
  - rewrite bool_decide_eq_false_2 by done.
    destruct (secretsCache w !! k) as [entry|] eqn:Hk; [|done].
    exfalso. apply Hnin. apply list_elem_of_fmap. exists (k, entry).
    split; [done|]. by apply elem_of_map_to_list.
Qed.

Lemma clearCache_returns projectId environment w :
  (clearCache projectId environment w).1 = Return tt.
Proof.
  unfold clearCache.
  destruct projectId as [p|]; [|done].
  destruct (truthy_string p); [|done].
  destruct environment as [e|]; [|done].
  by destruct (truthy_string e).
Qed.

(** [clearCache] touches nothing but the cache. *)
Lemma clearCache_frame projectId environment w :
  sent (clearCache projectId environment w).2 = sent w /\
  clock (clearCache projectId environment w).2 = clock w /\
  network (clearCache projectId environment w).2 = network w.
Proof.
  unfold clearCache.
  destruct projectId as [p|]; [|done].
  destruct (truthy_string p); [|done].
  destruct environment as [e|]; [|done].
  by destruct (truthy_string e).
Qed.

(** Whatever its arguments are read as, [clearCache(projectId, environment)]
    leaves no entry under the key of the pair. *)
Lemma clearCache_pair_gone projectId environment w :
  secretsCache (clearCache (Some projectId) (Some environment) w).2
    !! getCacheKey projectId environment = None.
Proof.
  unfold clearCache.
  destruct (truthy_string projectId); [|apply lookup_empty].
  destruct (truthy_string environment).
  - apply lookup_delete_eq.
  - by rewrite cache_delete_startsWith_lookup, startsWith_getCacheKey.
Qed.

(** ** Mutations of secrets clear the pair's entry *)

Lemma request_then_clearCache {B} this method path body projectId environment
    (k : JSValue -> Async B) w :
  bind (request this method path body)
    (fun response =>
       bind (clearCache (Some projectId) (Some environment)) (fun _ => k response)) w =
  match request this method path body w with
  | (Return response, w1) =>
      k response (clearCache (Some projectId) (Some environment) w1).2
  | (Throw error, w1) => (Throw error, w1)
  end.
Proof.
  unfold bind. destruct (request this method path body w) as [[response|error] w1]; [|done].
  pose proof (clearCache_returns (Some projectId) (Some environment) w1) as Hret.
  destruct (clearCache (Some projectId) (Some environment) w1) as [c w2].
  simpl in *. by subst c.
Qed.

Lemma invalidates_intro {A} (op : Async A) this method path body projectId environment
    (k : JSValue -> Completion A) w :
  op w =
    bind (request this method path body)
      (fun response =>
         bind (clearCache (Some projectId) (Some environment))
           (fun _ => eval (k response))) w ->
  invalidates op (request this method path body) projectId environment w.
Proof.
  intros Hop. rewrite request_then_clearCache in Hop. split.
  - intros response w1 Hcall. rewrite Hcall in Hop. rewrite Hop. simpl.
    split; [done|]. apply clearCache_pair_gone.
  - intros error w1 Hcall. rewrite Hcall in Hop. split; [done|].
    by apply request_frame in Hcall as (? & _).
Qed.

(** C3.  Whatever the TTL is, [createSecret], [updateSecret], [deleteSecret]
    and [bulkImport] clear the entry of their (project, environment) pair
    right after their request has succeeded; when the request fails, they
    fail with the same error and the cache is unchanged. *)
Theorem mutations_invalidate this projectId environment key value description
    items overwrite w :
  invalidates
    (createSecret this projectId environment key value description)
    (request this "POST" (environment_path projectId environment +:+ "/secrets")
       (VObj [("key", VStr key); ("value", VStr value);
              ("description", optional description)]))
    projectId environment w /\
  invalidates
    (updateSecret this projectId environment key value description)
    (request this "PUT" (environment_path projectId environment +:+ "/secrets/" +:+ key)
       (VObj [("value", VStr value); ("description", optional description)]))
    projectId environment w /\
  invalidates
    (deleteSecret this projectId environment key)
    (request this "DELETE"
       (environment_path projectId environment +:+ "/secrets/" +:+ key) VUndefined)
    projectId environment w /\
  invalidates
    (bulkImport this projectId environment items overwrite)
    (request this "POST" (environment_path projectId environment +:+ "/secrets/bulk")
       (VObj [("secrets", VArr (map bulk_item items));
              ("overwrite", VBool (default false overwrite))]))
    projectId environment w.
Proof.
  split; [|split; [|split]].
  - by apply (invalidates_intro _ _ _ _ _ _ _ (fun response => prop response "data")).
  - by apply (invalidates_intro _ _ _ _ _ _ _ (fun response => prop response "data")).
  - apply (invalidates_intro _ _ _ _ _ _ _ (fun _ => Return tt)).
    unfold deleteSecret, bind.
    destruct (request _ _ _ _ w) as [[response|error] w1]; [|done].
    pose proof (clearCache_returns (Some projectId) (Some environment) w1) as Hret.
    destruct (clearCache (Some projectId) (Some environment) w1) as [c w2].
    simpl in *. by subst c.
  - by apply (invalidates_intro _ _ _ _ _ _ _ (fun response => prop response "data")).
Qed.

Lemma mutations_invalidate_witness :
  let this := example_client 300 in
  let entry := {| secrets := VArr [secret_object "KEY1" "old"]; expiresAt := 301200 |} in
  let cached net :=
    {| secretsCache := <["proj-1:production" := entry]> ∅;
       clock := 2000; sent := []; network := net |} in
  let created := always 2100 (Return (json_response 201 (VObj [("data", secret_object "KEY2" "new")]))) in
  let refused := always 2100 (Return (json_response 403 (VObj [("error", VStr "Access denied")]))) in
  secretsCache (createSecret this "proj-1" "production" "KEY2" "new" None (cached created)).2
    !! "proj-1:production" = None /\
  secretsCache (deleteSecret this "proj-1" "production" "KEY1" (cached created)).2
    !! "proj-1:production" = None /\
  (createSecret this "proj-1" "production" "KEY2" "new" None (cached refused)).1 =
    Throw (typed_error (VStr "Access denied") 403) /\
  secretsCache (createSecret this "proj-1" "production" "KEY2" "new" None (cached refused)).2
    !! "proj-1:production" = Some entry.
Proof.
  intros this entry cached created refused.
  destruct (mutations_invalidate this "proj-1" "production" "KEY2" "new" None [] None
              (cached created)) as ([Hcreate _] & _).
  destruct (mutations_invalidate this "proj-1" "production" "KEY1" "new" None [] None
              (cached created)) as (_ & _ & [Hdelete _] & _).
  destruct (mutations_invalidate this "proj-1" "production" "KEY2" "new" None [] None
              (cached refused)) as ([_ Hrefused] & _).
  split; [|split].
  - by destruct (Hcreate _ _ eq_refl) as [_ Hgone].
  - by destruct (Hdelete _ _ eq_refl) as [_ Hgone].
  - destruct (Hrefused _ _ eq_refl) as [-> _]. by split.
Defined.

(** ** [setSecret] *)

Lemma updateSecret_sent this projectId environment key value description w :
  sent (updateSecret this projectId environment key value description w).2 =
  sent w ++ [update_request this projectId environment key value description].
Proof.
  unfold updateSecret. rewrite request_then_clearCache.
  destruct (request _ _ _ _ w) as [[response|error] w1] eqn:Hcall;
    apply request_frame in Hcall as (_ & Hsent & _); [|done].
  unfold eval. cbn [snd].
  by destruct (clearCache_frame (Some projectId) (Some environment) w1) as (-> & _).
Qed.

Lemma createSecret_sent this projectId environment key value description w :
  sent (createSecret this projectId environment key value description w).2 =
  sent w ++ [create_request this projectId environment key value description].
Proof.
  unfold createSecret. rewrite request_then_clearCache.
  destruct (request _ _ _ _ w) as [[response|error] w1] eqn:Hcall;
    apply request_frame in Hcall as (_ & Hsent & _); [|done].
  unfold eval. cbn [snd].
  by destruct (clearCache_frame (Some projectId) (Some environment) w1) as (-> & _).
Qed.

(** C4.  [setSecret] first runs the update (one PUT).  When the update
    succeeds, or fails in any way other than a [KeyEnvError] with status
    404, [setSecret] ends as the update ended and has sent that one request.
    When the update fails with a [KeyEnvError] with status 404, [setSecret]
    goes on with the create for the same key, value and description, and has
    sent two requests, the PUT and then the POST.  So the create is attempted
    if and only if the update failed with a typed 404. *)
Theorem setSecret_upsert this projectId environment key value description w :
  let put := update_request this projectId environment key value description in
  let post := create_request this projectId environment key value description in
  let update := updateSecret this projectId environment key value description w in
  let after := setSecret this projectId environment key value description w in
  (forall v, update.1 = Return v ->
     after = update /\ sent after.2 = sent w ++ [put]) /\
  (forall e, update.1 = Throw (ThrownKeyEnvError e) -> err_status e = 404 ->
     after = createSecret this projectId environment key value description update.2 /\
     sent after.2 = sent w ++ [put; post]) /\
  (forall error, update.1 = Throw error ->
     (forall e, error = ThrownKeyEnvError e -> err_status e <> 404) ->
     after = update /\ sent after.2 = sent w ++ [put]) /\
  ((exists e, update.1 = Throw (ThrownKeyEnvError e) /\ err_status e = 404)
     <-> sent after.2 = sent w ++ [put; post]).
Proof.
  intros put post update after.
  pose proof (updateSecret_sent this projectId environment key value description w)
    as Hput. fold update put in Hput.
  assert (forall e, update.1 = Throw (ThrownKeyEnvError e) -> err_status e = 404 ->
     after = createSecret this projectId environment key value description update.2 /\
     sent after.2 = sent w ++ [put; post]) as Hcreate.
  { intros e Hupdate H404. unfold after, setSecret, try_catch. fold update.
    destruct update as [c w1]. simpl in *. subst c. rewrite H404. simpl.
    split; [done|]. rewrite createSecret_sent, Hput. by rewrite <- app_assoc. }
  assert (forall error, update.1 = Throw error ->
     (forall e, error = ThrownKeyEnvError e -> err_status e <> 404) ->
     after = update /\ sent after.2 = sent w ++ [put]) as Hthrow.
  { intros error Hupdate Hother. unfold after, setSecret, try_catch. fold update.
    destruct update as [c w1]. simpl in *. subst c.
    destruct error as [e|name msg|v]; try done.
    destruct (Z.eqb_spec (err_status e) 404) as [H404|_]; [|done].
    by destruct (Hother e eq_refl). }
  split; [|split; [|split]]; [|done|done|].
  - intros v Hupdate. unfold after, setSecret, try_catch. fold update.
    destruct update as [c w1]. simpl in *. by subst c.
  - split.
    + intros (e & Hupdate & H404). by apply (Hcreate e).
    + intros Hsent. destruct (update.1) as [v|error] eqn:Hupdate.
      * exfalso. assert (sent after.2 = sent w ++ [put]) as Hone.
        { unfold after, setSecret, try_catch. fold update.
          destruct update as [c w1]. simpl in *. by subst c. }
        rewrite Hone in Hsent. apply (f_equal length) in Hsent.
        rewrite !length_app in Hsent. simpl in Hsent. lia.
      * destruct error as [e|name msg|v].
        -- destruct (decide (err_status e = 404)) as [H404|Hne]; [eauto|].
           exfalso. destruct (Hthrow _ eq_refl) as [_ Hone].
           { by intros e' [= <-]. }
           rewrite Hone in Hsent. apply (f_equal length) in Hsent.
           rewrite !length_app in Hsent. simpl in Hsent. lia.
        -- exfalso. destruct (Hthrow _ eq_refl) as [_ Hone]; [done|].
           rewrite Hone in Hsent. apply (f_equal length) in Hsent.
           rewrite !length_app in Hsent. simpl in Hsent. lia.
        -- exfalso. destruct (Hthrow _ eq_refl) as [_ Hone]; [done|].
           rewrite Hone in Hsent. apply (f_equal length) in Hsent.
           rewrite !length_app in Hsent. simpl in Hsent. lia.
Qed.

Lemma setSecret_upsert_witness :
  let this := example_client 0 in
  let put := update_request this "proj-1" "production" "NEW_KEY" "new-value" None in
  let post := create_request this "proj-1" "production" "NEW_KEY" "new-value" None in
  let existing := always 10 (Return (json_response 200 (VObj [("data", secret_object "NEW_KEY" "new-value")]))) in
  setSecret this "proj-1" "production" "NEW_KEY" "new-value" None (new_world missing_key_network)
    = (Return (secret_object "NEW_KEY" "new-value"),
       {| secretsCache := ∅; clock := 20; sent := [put; post];
          network := missing_key_network |}) /\
  sent (setSecret this "proj-1" "production" "NEW_KEY" "new-value" None
          (new_world existing)).2 = [put] /\
  sent (setSecret this "proj-1" "production" "NEW_KEY" "new-value" None
          (new_world (always 10 (Return (json_response 500 (VObj [("error", VStr "boom")])))))).2
    = [put].
Proof.
  intros this put post existing. split; [|split].
  - destruct (setSecret_upsert this "proj-1" "production" "NEW_KEY" "new-value" None
                (new_world missing_key_network)) as (_ & Hcreate & _).
    destruct (Hcreate (mkKeyEnvError (VStr "Not found") 404 VUndefined VUndefined))
      as [-> _]; reflexivity.
  - destruct (setSecret_upsert this "proj-1" "production" "NEW_KEY" "new-value" None
                (new_world existing)) as (Hupdate & _).
    by destruct (Hupdate (secret_object "NEW_KEY" "new-value") eq_refl) as [_ ->].
  - destruct (setSecret_upsert this "proj-1" "production" "NEW_KEY" "new-value" None
                (new_world (always 10 (Return (json_response 500 (VObj [("error", VStr "boom")]))))))
      as (_ & _ & Hother & _).
    destruct (Hother (typed_error (VStr "boom") 500) eq_refl) as [_ ->]; [|done].
    intros e [= <-]. simpl. lia.
Defined.

(** ** Methods that leave the cache alone *)

Lemma leaves_cache_intro {A} this (op : Async A) :
  (forall f w, op (with_cache f w) = ((op w).1, with_cache f (op w).2)) ->
  (forall w, secretsCache (op w).2 = secretsCache w) ->
  leaves_cache this op.
Proof.
  intros Hblind Hsame. split; [done|]. split; [done|].
  intros w projectId environment entry t Httl Hentry Ht.
  apply exportSecrets_hit, fresh_entry_Some. simpl. by rewrite Hsame.
Qed.

Lemma leaves_cache_request {A} this method path body (k : JSValue -> Completion A) :
  leaves_cache this
    (bind (request this method path body) (fun response => eval (k response))).
Proof.
  apply leaves_cache_intro.
  - intros f w. unfold bind, eval. rewrite request_with_cache.
    by destruct (request this method path body w) as [[response|error] w1].
  - intros w. unfold bind, eval.
    destruct (request this method path body w) as [[response|error] w1] eqn:Hcall;
      by apply request_frame in Hcall as (? & _).
Qed.

(** C10.  [deleteEnvironment], [deleteProject], [setPermission],
    [deletePermission], [bulkSetPermissions] and [setProjectDefaults]
    neither read nor change the export cache; whether they succeed or fail,
    every entry that has not expired (also one of the deleted project or
    environment) is still served by a later [exportSecrets] of a client with
    a TTL above 0. *)
Theorem cache_untouched this projectId environment userId role permissions defaults :
  leaves_cache this (deleteEnvironment this projectId environment) /\
  leaves_cache this (deleteProject this projectId) /\
  leaves_cache this (setPermission this projectId environment userId role) /\
  leaves_cache this (deletePermission this projectId environment userId) /\
  leaves_cache this (bulkSetPermissions this projectId environment permissions) /\
  leaves_cache this (setProjectDefaults this projectId defaults).
Proof.
  split_and!.
  - apply (leaves_cache_request _ _ _ _ (fun _ => Return tt)).
  - apply (leaves_cache_request _ _ _ _ (fun _ => Return tt)).
  - apply (leaves_cache_request _ _ _ _ (fun response => prop response "data")).
  - apply (leaves_cache_request _ _ _ _ (fun _ => Return tt)).
  - apply (leaves_cache_request _ _ _ _ (fun response => prop response "data")).
  - apply (leaves_cache_request _ _ _ _ (fun response => prop response "data")).
Qed.

Lemma cache_untouched_witness :
  let this := example_client 300 in
  let entry := {| secrets := VArr [secret_object "KEY1" "old"]; expiresAt := 301200 |} in
  let w :=
    {| secretsCache := <["proj-1:production" := entry]> ∅;
       clock := 2000; sent := [];
       network := always 2100 (Return {| ok := true; status := 204; statusText := "";
                                         json := Throw (ThrownError "SyntaxError" "") |}) |} in
  (deleteProject this "proj-1" w).1 = Return tt /\
  exportSecrets this "proj-1" "production" (at_time 3000 (deleteProject this "proj-1" w).2)
    = (Return (secrets entry), at_time 3000 (deleteProject this "proj-1" w).2) /\
  exportSecrets this "proj-1" "production"
      (at_time 3000 (deleteEnvironment this "proj-1" "production" w).2)
    = (Return (secrets entry),
       at_time 3000 (deleteEnvironment this "proj-1" "production" w).2).
Proof.
  intros this entry w.
  destruct (cache_untouched this "proj-1" "production" "user-1" read [] [])
    as ((_ & _ & Henv) & (_ & _ & Hproj) & _).
  split; [reflexivity|]. split.
  - apply Hproj; [simpl; lia|reflexivity|simpl; lia].
  - apply Henv; [simpl; lia|reflexivity|simpl; lia].
Defined.

(** ** Cache keys *)

(** Searching a string for one character. *)
Lemma includes_char_cons (a c : ascii) (s : string) :
  includes (String a s) (String c "") =
  Ascii.eqb a c || includes s (String c "").
Proof.
  change (includes (String a s) (String c ""))
    with (String.prefix (String c "") (String a s) || includes s (String c "")).
  rewrite prefix_cons, prefix_nil. f_equal.
  destruct (ascii_dec c a) as [->|Hne].
  - by rewrite Ascii.eqb_refl.
  - symmetry. apply Ascii.eqb_neq. congruence.
Qed.

Lemma includes_char_nil (c : ascii) : includes "" (String c "") = false.
Proof. reflexivity. Qed.

Lemma colon_free_cons (a : ascii) (s : string) :
  colon_free (String a s) <-> a <> ":"%char /\ colon_free s.
Proof.
  unfold colon_free. rewrite (includes_char_cons a ":" s), orb_false_iff.
  by rewrite Ascii.eqb_neq.
Qed.

(** For project identifiers without a colon the key determines the pair. *)
Lemma getCacheKey_inj p1 e1 p2 e2 :
  colon_free p1 -> colon_free p2 ->
  getCacheKey p1 e1 = getCacheKey p2 e2 -> p1 = p2 /\ e1 = e2.
Proof.
  unfold getCacheKey. revert p2.
  induction p1 as [|c p1 IH]; intros [|d p2] H1 H2; rewrite ?append_cons, ?append_nil.
  - by intros [= ->].
  - intros [= <- _]. by apply colon_free_cons in H2 as [? _].
  - intros [= -> _]. by apply colon_free_cons in H1 as [? _].
  - intros [= -> Hrest].
    apply colon_free_cons in H1 as [_ H1]. apply colon_free_cons in H2 as [_ H2].
    by destruct (IH p2 H1 H2 Hrest) as [-> ->].
Qed.

Lemma startsWith_project p p2 e2 :
  colon_free p -> colon_free p2 ->
  startsWith (getCacheKey p2 e2) (p +:+ ":") = true <-> p2 = p.
Proof.
  intros Hp Hp2. split.
  - unfold startsWith. intros [b Hb]%prefix_exists.
    rewrite app_assoc_string in Hb.
    by destruct (getCacheKey_inj p2 e2 p b Hp2 Hp Hb).
  - intros ->. apply startsWith_getCacheKey.
Qed.

Lemma truthy_string_true (s : string) : s <> "" -> truthy_string s = true.
Proof.
  intros Hs. unfold truthy_string. by destruct (String.eqb_spec s "").
Qed.

(** C5, as amended.  Entries are kept under the string
    [projectId:environment].  For project identifiers that contain no colon,
    two different pairs have different keys.  [clearCache] with a non-empty
    project identifier and a non-empty environment name removes the entry
    under that pair's key and no other; with a non-empty project identifier
    alone it removes the entries whose key starts with [projectId:] and no
    other, which for colon-free project identifiers are exactly the entries
    of that project; without arguments it removes all entries. *)
Theorem cache_keys :
  (forall p1 e1 p2 e2,
     colon_free p1 -> colon_free p2 ->
     (p1, e1) <> (p2, e2) -> getCacheKey p1 e1 <> getCacheKey p2 e2) /\
  (forall p e w k,
     p <> "" -> e <> "" ->
     secretsCache (clearCache (Some p) (Some e) w).2 !! k =
       if decide (k = getCacheKey p e) then None else secretsCache w !! k) /\
  (forall p e w p2 e2,
     p <> "" -> e <> "" -> colon_free p -> colon_free p2 ->
     secretsCache (clearCache (Some p) (Some e) w).2 !! getCacheKey p2 e2 =
       if decide ((p2, e2) = (p, e)) then None
       else secretsCache w !! getCacheKey p2 e2) /\
  (forall p w k,
     p <> "" ->
     secretsCache (clearCache (Some p) None w).2 !! k =
       if startsWith k (p +:+ ":") then None else secretsCache w !! k) /\
  (forall p w p2 e2,
     p <> "" -> colon_free p -> colon_free p2 ->
     secretsCache (clearCache (Some p) None w).2 !! getCacheKey p2 e2 =
       if decide (p2 = p) then None else secretsCache w !! getCacheKey p2 e2) /\
  (forall w, secretsCache (clearCache None None w).2 = ∅).
Proof.
  split_and!.
  - intros p1 e1 p2 e2 H1 H2 Hne Hkey.
    by destruct (getCacheKey_inj _ _ _ _ H1 H2 Hkey) as [-> ->].
  - intros p e w k Hp He. unfold clearCache.
    rewrite (truthy_string_true p Hp), (truthy_string_true e He). simpl.
    destruct (decide (k = getCacheKey p e)) as [->|Hne].
    + apply lookup_delete_eq.
    + by apply lookup_delete_ne.
  - intros p e w p2 e2 Hp He Hfree Hfree2. unfold clearCache.
    rewrite (truthy_string_true p Hp), (truthy_string_true e He). simpl.
    destruct (decide ((p2, e2) = (p, e))) as [[= -> ->]|Hne].
    + apply lookup_delete_eq.
    + apply lookup_delete_ne. intros Hkey.
      by destruct (getCacheKey_inj _ _ _ _ Hfree Hfree2 Hkey) as [-> ->].
  - intros p w k Hp. unfold clearCache. rewrite (truthy_string_true p Hp).
    apply cache_delete_startsWith_lookup.
  - intros p w p2 e2 Hp Hfree Hfree2. unfold clearCache.
    rewrite (truthy_string_true p Hp), cache_delete_startsWith_lookup.
    pose proof (startsWith_project p p2 e2 Hfree Hfree2) as Hstart.
    destruct (decide (p2 = p)) as [->|Hne].
    + by rewrite (proj2 Hstart eq_refl).
    + destruct (startsWith (getCacheKey p2 e2) (p +:+ ":")); [|done].
      by destruct Hne, Hstart as [-> _].
  - done.
Qed.

Lemma cache_keys_witness :
  let entry x := {| secrets := VArr [secret_object "KEY1" x]; expiresAt := 301200 |} in
  let w :=
    {| secretsCache :=
         <["proj-1:production" := entry "a"]>
           (<["proj-1:staging" := entry "b"]> (<["proj-2:production" := entry "c"]> ∅));
       clock := 2000; sent := []; network := always 0 (Throw (ThrownValue VNull)) |} in
  getCacheKey "proj-1" "production" <> getCacheKey "proj-2" "production" /\
  secretsCache (clearCache (Some "proj-1") (Some "production") w).2
    !! getCacheKey "proj-1" "staging" = Some (entry "b") /\
  secretsCache (clearCache (Some "proj-1") (Some "production") w).2
    !! getCacheKey "proj-1" "production" = None /\
  secretsCache (clearCache (Some "proj-1") None w).2
    !! getCacheKey "proj-1" "staging" = None /\
  secretsCache (clearCache (Some "proj-1") None w).2
    !! getCacheKey "proj-2" "production" = Some (entry "c").
Proof.
  intros entry w.
  destruct cache_keys as (Hinj & Hpair & _ & _ & Hproject & _).
  split_and!.
  - apply Hinj; [reflexivity|reflexivity|discriminate].
  - by rewrite (Hpair "proj-1" "production" w _ ltac:(discriminate) ltac:(discriminate)).
  - by rewrite (Hpair "proj-1" "production" w _ ltac:(discriminate) ltac:(discriminate)).
  - by rewrite (Hproject "proj-1" w "proj-1" "staging" ltac:(discriminate) eq_refl eq_refl).
  - by rewrite (Hproject "proj-1" w "proj-2" "production" ltac:(discriminate) eq_refl eq_refl).
Defined.

(** C5 as stated fails.  The pairs ("a:b", "c") and ("a", "b:c") are
    different and have the same key: what [exportSecrets] stored for the
    first is served, without a request, for the second.  And [clearCache]
    with the project identifier "a" alone also removes the entry of project
    "a:b". *)
Lemma cache_keys_counterexample :
  let this := example_client 300 in
  let exported := VArr [secret_object "KEY1" "value1"] in
  let w := new_world (always 1200 (Return (json_response 200 (VObj [("data", exported)])))) in
  let w1 := (exportSecrets this "a:b" "c" w).2 in
  ("a:b", "c") <> ("a", "b:c") /\
  getCacheKey "a:b" "c" = getCacheKey "a" "b:c" /\
  exportSecrets this "a" "b:c" w1 = (Return exported, w1) /\
  sent (exportSecrets this "a" "b:c" w1).2 = sent w1 /\
  secretsCache w1 !! getCacheKey "a:b" "c" =
    Some {| secrets := exported; expiresAt := 301200 |} /\
  secretsCache (clearCache (Some "a") None w1).2 !! getCacheKey "a:b" "c" = None.
Proof. split_and!; done. Qed.

(** ** [generateEnvFile] *)

Lemma includes_char_contains (s : string) (c : ascii) :
  includes s (String c "") = true <-> contains c s.
Proof.
  unfold contains. induction s as [|a s IH].
  - rewrite includes_char_nil. split; [done|]. by intros ?%elem_of_nil.
  - rewrite includes_char_cons, orb_true_iff, IH, Ascii.eqb_eq.
    change (list_ascii_of_string (String a s)) with (a :: list_ascii_of_string s).
    rewrite elem_of_cons. split; (intros [->|?]; [by left|by right]).
Qed.

Lemma plain_includes (value : string) :
  plain value <->
  includes value LF || includes value DQUOTE || includes value "'"
    || includes value " " || includes value "$" = false.
Proof.
  unfold plain, quoting_chars, LF, DQUOTE.
  rewrite !orb_false_iff. split.
  - intros Hplain. split_and!; apply not_true_iff_false;
      intros Hin%includes_char_contains; apply (Hplain _) in Hin; [done| |done| |done| |done| |done|];
      set_solver.
  - intros ((((Hlf & Hdq) & Hsq) & Hsp) & Hdollar) c Hc Hin.
    apply includes_char_contains in Hin.
    repeat (apply elem_of_cons in Hc as [->|Hc]; [congruence|]).
    by apply elem_of_nil in Hc.
Qed.

Lemma flat_map_string_app f (a b : string) :
  flat_map_string f (a +:+ b) = flat_map_string f a +:+ flat_map_string f b.
Proof.
  induction a as [|c a IH]; [done|].
  rewrite append_cons. simpl. by rewrite IH, app_assoc_string.
Qed.

Lemma flat_map_string_compose f g (s : string) :
  flat_map_string g (flat_map_string f s) =
  flat_map_string (fun a => flat_map_string g (f a)) s.
Proof.
  induction s as [|c s IH]; [done|].
  simpl. by rewrite flat_map_string_app, IH.
Qed.

Lemma flat_map_string_ext f g (s : string) :
  (forall a, f a = g a) -> flat_map_string f s = flat_map_string g s.
Proof. intros Hfg. induction s as [|c s IH]; [done|]. simpl. by rewrite Hfg, IH. Qed.

Lemma replace_global_flat_map c replacement (s : string) :
  replace_global c replacement s =
  flat_map_string (fun a => if Ascii.eqb a c then replacement else String a "") s.
Proof. induction s as [|a s IH]; [done|]. simpl. by rewrite IH. Qed.

(** The four replacements of [generateEnvFile], one after the other, escape
    every character on its own. *)
Lemma replacements_escape (value : string) :
  replace_global "$" (BACKSLASH +:+ "$")
    (replace_global "010" (BACKSLASH +:+ "n")
       (replace_global "034" (BACKSLASH +:+ DQUOTE)
          (replace_global "092" (BACKSLASH +:+ BACKSLASH) value)))
  = escape value.
Proof.
  rewrite !replace_global_flat_map, !flat_map_string_compose.
  apply flat_map_string_ext.
  by intros [[] [] [] [] [] [] [] []].
Qed.

Lemma env_file_lines environment generated_at secrets :
  env_file environment generated_at secrets =
  String.concat LF (env_header environment generated_at ++ map env_line secrets) +:+ LF.
Proof.
  unfold env_file, env_header.
  generalize ["# Generated by KeyEnv"; "# Environment: " +:+ environment;
              "# Generated at: " +:+ generated_at; ""].
  induction secrets as [|secret secrets IH]; intros lines; simpl.
  - by rewrite app_nil_r.
  - rewrite IH. by rewrite <- app_assoc.
Qed.

Lemma length_append (a b : string) :
  String.length (a +:+ b) = (String.length a + String.length b)%nat.
Proof. induction a as [|c a IH]; [done|]. rewrite append_cons. simpl. by rewrite IH. Qed.

Lemma length_escape (value : string) :
  (String.length value <= String.length (escape value))%nat.
Proof.
  unfold escape. induction value as [|c value IH]; [done|].
  simpl. rewrite length_append.
  assert (1 <= String.length (escape_char c))%nat; [|lia].
  unfold escape_char.
  repeat (destruct (Ascii.eqb c _); [simpl; lia|]). simpl. lia.
Qed.

(** C6.  For every list of exported secrets [generateEnvFile] returns the
    header lines followed by one line for each secret, joined by newlines and
    ended by a newline.  The line of a secret is [KEY=value], without
    quotes, if and only if the value contains no space, double quote, single
    quote, newline or dollar; otherwise it is [KEY="escaped"], where every
    backslash of the value is doubled and every double quote, newline and
    dollar is escaped with a backslash. *)
Theorem generateEnvFile_renders :
  (forall secret, plain (secret_value secret) ->
     env_line secret = secret_key secret +:+ "=" +:+ secret_value secret) /\
  (forall secret, ~ plain (secret_value secret) ->
     env_line secret =
       secret_key secret +:+ "=" +:+ DQUOTE +:+ escape (secret_value secret) +:+ DQUOTE) /\
  (forall secret,
     env_line secret = secret_key secret +:+ "=" +:+ secret_value secret
     <-> plain (secret_value secret)) /\
  (forall toISOString this projectId environment w exported w' secrets,
     exportSecrets this projectId environment w = (Return exported, w') ->
     as_secrets exported = Some secrets ->
     generateEnvFile toISOString this projectId environment w =
       Some (Return
               (String.concat LF
                  (env_header environment (toISOString (clock w')) ++ map env_line secrets)
                +:+ LF), w')).
Proof.
  assert (forall secret, plain (secret_value secret) ->
     env_line secret = secret_key secret +:+ "=" +:+ secret_value secret) as Hplain.
  { intros secret Hplain%plain_includes. unfold env_line. by rewrite Hplain. }
  assert (forall secret, ~ plain (secret_value secret) ->
     env_line secret =
       secret_key secret +:+ "=" +:+ DQUOTE +:+ escape (secret_value secret) +:+ DQUOTE)
    as Hquoted.
  { intros secret Hnot. unfold env_line.
    destruct (includes (secret_value secret) LF || includes (secret_value secret) DQUOTE
              || includes (secret_value secret) "'" || includes (secret_value secret) " "
              || includes (secret_value secret) "$") eqn:Hincl.
    - by rewrite replacements_escape.
    - by apply plain_includes in Hincl. }
  split_and!; [done|done| |].
  - intros secret. split; [|apply Hplain].
    intros Hline.
    destruct (includes (secret_value secret) LF || includes (secret_value secret) DQUOTE
              || includes (secret_value secret) "'" || includes (secret_value secret) " "
              || includes (secret_value secret) "$") eqn:Hincl;
      [|by apply plain_includes].
    exfalso. rewrite Hquoted in Hline.
    + apply (inj (String.append (secret_key secret))) in Hline.
      apply (inj (String.append "=")) in Hline.
      apply (f_equal String.length) in Hline. rewrite !length_append in Hline.
      pose proof (length_escape (secret_value secret)). simpl in Hline. lia.
    + intros Hp%plain_includes. congruence.
  - intros toISOString this projectId environment w exported w' secrets Hexport Hsecrets.
    unfold generateEnvFile. by rewrite Hexport, Hsecrets, env_file_lines.
Qed.

Lemma generateEnvFile_renders_witness :
  let this := example_client 0 in
  let exported :=
    VArr [secret_object "DOLLAR_VAR" "price=$100"; secret_object "SIMPLE" "no_special";
          secret_object "WITH_SPACES" "hello world";
          secret_object "WITH_QUOTES" ("say " +:+ DQUOTE +:+ "hello" +:+ DQUOTE)] in
  let w := new_world (always 5 (Return (json_response 200 (VObj [("data", exported)])))) in
  fst <$> generateEnvFile (fun _ => "2026-01-01T00:00:00.000Z") this "proj-1" "production" w =
    Some (Return
      (String.concat LF
         ["# Generated by KeyEnv"; "# Environment: production";
          "# Generated at: 2026-01-01T00:00:00.000Z"; "";
          "DOLLAR_VAR=" +:+ DQUOTE +:+ "price=" +:+ BACKSLASH +:+ "$100" +:+ DQUOTE;
          "SIMPLE=no_special";
          "WITH_SPACES=" +:+ DQUOTE +:+ "hello world" +:+ DQUOTE;
          "WITH_QUOTES=" +:+ DQUOTE +:+ "say " +:+ BACKSLASH +:+ DQUOTE +:+ "hello"
            +:+ BACKSLASH +:+ DQUOTE +:+ DQUOTE]
       +:+ LF)) /\
  env_line (mkSecret "SIMPLE" "no_special") = "SIMPLE=no_special".
Proof.
  intros this exported w.
  destruct generateEnvFile_renders as (Hplain & _ & _ & Hfile).
  split.
  - rewrite (Hfile (fun _ => "2026-01-01T00:00:00.000Z") this "proj-1" "production" w
               exported (exportSecrets this "proj-1" "production" w).2
               [mkSecret "DOLLAR_VAR" "price=$100"; mkSecret "SIMPLE" "no_special";
                mkSecret "WITH_SPACES" "hello world";
                mkSecret "WITH_QUOTES" ("say " +:+ DQUOTE +:+ "hello" +:+ DQUOTE)]).
    + vm_compute. reflexivity.
    + vm_compute. reflexivity.
    + vm_compute. reflexivity.
  - rewrite Hplain; [reflexivity|].
    apply plain_includes. vm_compute. reflexivity.
Defined.

(** ** Wire names of [bulkSetPermissions] and [setProjectDefaults] *)

Lemma property_names_permissions permissions :
  Forall (fun name => name ∈ ["permissions"; "user_id"; "role"])
    (property_names (bulkSetPermissions_body permissions)).
Proof.
  unfold bulkSetPermissions_body. simpl. rewrite app_nil_r.
  apply Forall_cons. split; [set_solver|].
  induction permissions as [|p permissions IH]; simpl; [done|].
  repeat (apply Forall_cons; split; [set_solver|]). done.
Qed.

Lemma property_names_defaults defaults :
  Forall (fun name => name ∈ ["defaults"; "environment_name"; "default_role"])
    (property_names (setProjectDefaults_body defaults)).
Proof.
  unfold setProjectDefaults_body. simpl. rewrite app_nil_r.
  apply Forall_cons. split; [set_solver|].
  induction defaults as [|d defaults IH]; simpl; [done|].
  repeat (apply Forall_cons; split; [set_solver|]). done.
Qed.

(** C8.  The one request of [bulkSetPermissions] carries
    [{ permissions: [{ user_id, role }, ...] }] with one item for each item
    [{ userId, role }] of the caller, in order, and the one request of
    [setProjectDefaults] carries
    [{ defaults: [{ environment_name, default_role }, ...] }] with one item
    for each [{ environmentName, defaultRole }]; no property name in either
    body has a capital letter, so no camelCase name is sent. *)
Theorem wire_names this projectId environment permissions defaults w :
  (exists r,
     sent (bulkSetPermissions this projectId environment permissions w).2 = sent w ++ [r] /\
     body r =
       Some (VObj [("permissions",
                    VArr (map (fun p => VObj [("user_id", VStr (userId p));
                                              ("role", VStr (role_string (role p)))])
                            permissions))]) /\
     forall v, body r = Some v ->
       Forall (fun name => name ∈ ["permissions"; "user_id"; "role"] /\
                           has_upper name = false) (property_names v)) /\
  (exists r,
     sent (setProjectDefaults this projectId defaults w).2 = sent w ++ [r] /\
     body r =
       Some (VObj [("defaults",
                    VArr (map (fun d => VObj [("environment_name", VStr (environmentName d));
                                              ("default_role",
                                               VStr (role_string (defaultRole d)))])
                            defaults))]) /\
     forall v, body r = Some v ->
       Forall (fun name => name ∈ ["defaults"; "environment_name"; "default_role"] /\
                           has_upper name = false) (property_names v)).
Proof.
  split.
  - exists (request_init this "PUT"
              (environment_path projectId environment +:+ "/permissions")
              (bulkSetPermissions_body permissions)).
    split_and!.
    + unfold bulkSetPermissions, bind, eval.
      destruct (request _ _ _ _ w) as [[response|error] w1] eqn:Hcall;
        by apply request_frame in Hcall as (_ & ? & _).
    + reflexivity.
    + intros v [= <-].
      eapply Forall_impl; [apply property_names_permissions|].
      intros name Hname. split; [done|].
      repeat (apply elem_of_cons in Hname as [->|Hname]; [done|]).
      by apply elem_of_nil in Hname.
  - exists (request_init this "PUT"
              (projects_path projectId +:+ "/permissions/defaults")
              (setProjectDefaults_body defaults)).
    split_and!.
    + unfold setProjectDefaults, bind, eval.
      destruct (request _ _ _ _ w) as [[response|error] w1] eqn:Hcall;
        by apply request_frame in Hcall as (_ & ? & _).
    + reflexivity.
    + intros v [= <-].
      eapply Forall_impl; [apply property_names_defaults|].
      intros name Hname. split; [done|].
      repeat (apply elem_of_cons in Hname as [->|Hname]; [done|]).
      by apply elem_of_nil in Hname.
Qed.

Lemma wire_names_witness :
  let this := example_client 0 in
  let w := new_world (always 5 (Return (json_response 200 (VObj [("data", VArr [])])))) in
  map body
    (sent (bulkSetPermissions this "proj-1" "production"
             [mkPermissionInput "user-1" write; mkPermissionInput "user-2" read] w).2) =
    [Some (VObj [("permissions",
                  VArr [VObj [("user_id", VStr "user-1"); ("role", VStr "write")];
                        VObj [("user_id", VStr "user-2"); ("role", VStr "read")]])])] /\
  map body
    (sent (setProjectDefaults this "proj-1"
             [mkDefaultInput "development" write; mkDefaultInput "production" read] w).2) =
    [Some (VObj [("defaults",
                  VArr [VObj [("environment_name", VStr "development");
                              ("default_role", VStr "write")];
                        VObj [("environment_name", VStr "production");
                              ("default_role", VStr "read")]])])].
Proof.
  intros this w.
  destruct (wire_names this "proj-1" "production"
              [mkPermissionInput "user-1" write; mkPermissionInput "user-2" read]
              [mkDefaultInput "development" write; mkDefaultInput "production" read] w)
    as ((r1 & Hsent1 & Hbody1 & _) & (r2 & Hsent2 & Hbody2 & _)).
  split.
  - rewrite Hsent1. simpl. by rewrite Hbody1.
  - rewrite Hsent2. simpl. by rewrite Hbody2.
Defined.

(** ** [exportSecretsAsObject] *)

Lemma last_value_None k secrets :
  last_value k secrets = None <-> Forall (fun s => secret_key s <> k) secrets.
Proof.
  induction secrets as [|s secrets IH]; simpl; [done|].
  rewrite Forall_cons, <- IH.
  destruct (last_value k secrets); [by split; [|intros [_ ?]]|].
  destruct (decide (secret_key s = k)); split; try done. by intros [? _].
Qed.

Lemma last_value_app k before after :
  last_value k (before ++ after) =
  match last_value k after with
  | Some v => Some v
  | None => last_value k before
  end.
Proof.
  induction before as [|s before IH]; simpl.
  - by destruct (last_value k after).
  - rewrite IH. by destruct (last_value k after).
Qed.

Lemma last_value_Some k secrets v :
  last_value k secrets = Some v <->
  exists before s after,
    secrets = before ++ s :: after /\
    secret_key s = k /\ secret_value s = v /\
    Forall (fun s' => secret_key s' <> k) after.
Proof.
  split.
  - revert v. induction secrets as [|s0 secrets IH]; intros v; simpl; [done|].
    destruct (last_value k secrets) as [v'|] eqn:Hlast.
    + intros [= <-]. destruct (IH v' eq_refl) as (before & s & after & -> & ?).
      by exists (s0 :: before), s, after.
    + destruct (decide (secret_key s0 = k)) as [Hk|Hk]; [|done].
      intros [= <-]. exists [], s0, secrets. split_and!; try done.
      by apply last_value_None.
  - intros (before & s & after & -> & Hk & Hv & Hafter).
    rewrite last_value_app. simpl.
    apply last_value_None in Hafter. rewrite Hafter.
    destruct (decide (secret_key s = k)); [|done]. by rewrite Hv.
Qed.

Lemma foldl_insert_lookup (obj : gmap string string) secrets k :
  foldl (fun obj entry => <[entry.1 := entry.2]> obj) obj
        (map (fun s => (secret_key s, secret_value s)) secrets) !! k =
  match last_value k secrets with
  | Some v => Some v
  | None => obj !! k
  end.
Proof.
  revert obj. induction secrets as [|s secrets IH]; intros obj; simpl; [done|].
  rewrite IH. destruct (last_value k secrets); [done|].
  destruct (decide (secret_key s = k)) as [<-|Hne].
  - apply lookup_insert_eq.
  - by apply lookup_insert_ne.
Qed.

(** C9.  For every list of secrets that [exportSecrets] returns,
    [exportSecretsAsObject] returns the object whose properties are the keys
    of the secrets: a key is bound to a value exactly when a secret with that
    key and that value is in the list and no later secret of the list has the
    same key.  So among secrets that share a key the last one in list order
    gives the value. *)
Theorem exportSecretsAsObject_last this projectId environment w exported w' secrets :
  exportSecrets this projectId environment w = (Return exported, w') ->
  as_secrets exported = Some secrets ->
  exists obj,
    exportSecretsAsObject this projectId environment w = Some (Return obj, w') /\
    forall k v,
      obj !! k = Some v <->
      exists before s after,
        secrets = before ++ s :: after /\
        secret_key s = k /\ secret_value s = v /\
        Forall (fun s' => secret_key s' <> k) after.
Proof.
  intros Hexport Hsecrets. unfold exportSecretsAsObject.
  rewrite Hexport, Hsecrets. eexists. split; [reflexivity|].
  intros k v. unfold Object_fromEntries.
  rewrite foldl_insert_lookup, <- last_value_Some.
  destruct (last_value k secrets); [done|]. by rewrite lookup_empty.
Qed.

Lemma exportSecretsAsObject_last_witness :
  let this := example_client 0 in
  let exported :=
    VArr [secret_object "KEY1" "first"; secret_object "KEY2" "value2";
          secret_object "KEY1" "last"] in
  let w := new_world (always 5 (Return (json_response 200 (VObj [("data", exported)])))) in
  exists obj,
    fst <$> exportSecretsAsObject this "proj-1" "production" w = Some (Return obj) /\
    obj !! "KEY1" = Some "last" /\ obj !! "KEY2" = Some "value2" /\ obj !! "KEY3" = None.
Proof.
  intros this exported w.
  destruct (exportSecretsAsObject_last this "proj-1" "production" w exported
              (exportSecrets this "proj-1" "production" w).2
              [mkSecret "KEY1" "first"; mkSecret "KEY2" "value2"; mkSecret "KEY1" "last"])
    as (obj & Hobj & Hlookup); [vm_compute; reflexivity|vm_compute; reflexivity|].
  exists obj. split; [by rewrite Hobj|]. split_and!.
  - apply Hlookup.
    exists [mkSecret "KEY1" "first"; mkSecret "KEY2" "value2"], (mkSecret "KEY1" "last"), [].
    by split_and!.
  - apply Hlookup.
    exists [mkSecret "KEY1" "first"], (mkSecret "KEY2" "value2"), [mkSecret "KEY1" "last"].
    split_and!; try done. by apply Forall_cons.
  - destruct (obj !! "KEY3") as [v|] eqn:Hv; [|done].
    apply Hlookup in Hv as (before & s & after & Heq & Hk & _).
    exfalso. destruct before as [|? [|? [|? [|? ?]]]]; simplify_eq/=.
Defined.

(** * Further properties of the client *)

(** ** How [request] can end *)

(** X1.  [request] resolves only for an ok response: to [undefined] when
    the status is 204, to the parsed body otherwise.  A response that is not
    ok never resolves. *)
Theorem request_resolves_only_ok this method path body w v w' :
  request this method path body w = (Return v, w') ->
  exists response,
    fetch (request_init this method path body) w = (Return response, w') /\
    ok response = true /\
    (status response = 204 /\ v = VUndefined \/
     status response <> 204 /\ json response = Return v).
Proof.
  unfold request.
  destruct (fetch _ w) as [[response|error] w1].
  - destruct (ok response) eqn:Hok; simpl.
    + destruct (Z.eqb_spec (status response) 204) as [H204|H204].
      * intros [= <- <-]. exists response. auto.
      * intros [= Hjson <-]. exists response. auto.
    + run. destruct (json response) as [[]|]; simpl; discriminate.
  - destruct error as [e|name msg|x]; simpl; [discriminate| |discriminate].
    destruct (String.eqb name "AbortError"); discriminate.
Qed.

Lemma request_resolves_only_ok_witness :
  exists response,
    fetch (request_init (example_client 0) "GET" "/x" VUndefined)
      (new_world (always 5 (Return (json_response 200 (VNum 7))))) =
      (Return response,
       (request (example_client 0) "GET" "/x" VUndefined
          (new_world (always 5 (Return (json_response 200 (VNum 7)))))).2) /\
    ok response = true /\
    (status response = 204 /\ VNum 7 = VUndefined \/
     status response <> 204 /\ json response = Return (VNum 7)).
Proof.
  apply (request_resolves_only_ok (example_client 0) "GET" "/x" VUndefined
           (new_world (always 5 (Return (json_response 200 (VNum 7)))))).
  reflexivity.
Defined.

(** X2.  What [request] throws, by its cause.  A [KeyEnvError] that [fetch]
    itself threw is passed on as it is.  An aborted [fetch] (an [Error]
    named [AbortError]) gives the [KeyEnvError] "Request timeout" with
    status 408; a [fetch] that fails with any other [Error] gives a
    [KeyEnvError] with the message of that error and status 0; a [fetch]
    that fails with a value that is no [Error] gives the [KeyEnvError]
    "Network error" with status 0.  For a response that is not ok: when its
    body does not parse, the [KeyEnvError] has the status text as message
    and the status of the response; when its body parses to a value other
    than [null] and [undefined], the [KeyEnvError] has the status of the
    response; when its body parses to [null] or [undefined], the
    [KeyEnvError] has status 0.  For an ok response, only one whose status
    is not 204 and whose body does not parse makes [request] throw, and
    what is thrown is the rejection of [response.json()] as it is, not a
    [KeyEnvError].  Nothing else is thrown. *)
Theorem request_throws this method path body w thrown w' :
  request this method path body w = (Throw thrown, w') ->
  (exists e,
     fetch (request_init this method path body) w = (Throw (ThrownKeyEnvError e), w') /\
     thrown = ThrownKeyEnvError e) \/
  (exists msg,
     fetch (request_init this method path body) w =
       (Throw (ThrownError "AbortError" msg), w') /\
     thrown = typed_error (VStr "Request timeout") 408) \/
  (exists name msg,
     name <> "AbortError" /\
     fetch (request_init this method path body) w = (Throw (ThrownError name msg), w') /\
     thrown = typed_error (VStr msg) 0) \/
  (exists x,
     fetch (request_init this method path body) w = (Throw (ThrownValue x), w') /\
     thrown = typed_error (VStr "Network error") 0) \/
  (exists response,
     fetch (request_init this method path body) w = (Return response, w') /\
     ok response = false /\
     ((exists failure,
         json response = Throw failure /\
         thrown = typed_error (VStr (statusText response)) (status response)) \/
      (exists parsed e,
         json response = Return parsed /\ parsed <> VNull /\ parsed <> VUndefined /\
         thrown = ThrownKeyEnvError e /\ err_status e = status response) \/
      (exists parsed e,
         json response = Return parsed /\ (parsed = VNull \/ parsed = VUndefined) /\
         thrown = ThrownKeyEnvError e /\ err_status e = 0))) \/
  (exists response,
     fetch (request_init this method path body) w = (Return response, w') /\
     ok response = true /\ status response <> 204 /\ json response = Throw thrown).
Proof.
  unfold request.
  destruct (fetch _ w) as [[response|error] w1].
  - destruct (ok response) eqn:Hok; simpl.
    + destruct (Z.eqb_spec (status response) 204) as [H204|H204]; [discriminate|].
      intros [= Hjson <-]. do 5 right. exists response. split_and!; done.
    + intros Hrun. do 4 right. left. exists response.
      assert (w' = w1 /\
              ((exists failure,
                  json response = Throw failure /\
                  thrown = typed_error (VStr (statusText response)) (status response)) \/
               (exists parsed e,
                  json response = Return parsed /\ parsed <> VNull /\
                  parsed <> VUndefined /\
                  thrown = ThrownKeyEnvError e /\ err_status e = status response) \/
               (exists parsed e,
                  json response = Return parsed /\ (parsed = VNull \/ parsed = VUndefined) /\
                  thrown = ThrownKeyEnvError e /\ err_status e = 0)))
        as [-> Hcases]; [|done].
      revert Hrun. run.
      destruct (json response) as [parsed|failure]; simpl.
      * destruct parsed; simpl; intros [= <- <-]; (split; [done|]); right;
          first [ right; eexists _, _; split_and!; [reflexivity|auto|reflexivity|reflexivity]
                | left; eexists _, _; split_and!;
                    [reflexivity|discriminate|discriminate|reflexivity|reflexivity] ].
      * intros [= <- <-]. split; [done|]. left. by exists failure.
  - intros Hrun.
    destruct error as [e|name msg|x]; simpl in Hrun.
    + injection Hrun as <- <-. left. by exists e.
    + destruct (String.eqb_spec name "AbortError") as [->|Hname];
        injection Hrun as <- <-.
      * right. left. by exists msg.
      * do 2 right. left. by exists name, msg.
    + injection Hrun as <- <-. do 3 right. left. by exists x.
Qed.

Lemma request_throws_witness :
  let this := example_client 0 in
  let aborted := new_world (always 30005 (Throw (ThrownError "AbortError" "This operation was aborted"))) in
  let denied := new_world (always 5 (Return (json_response 403 (VObj [("error", VStr "Access denied")])))) in
  (request this "GET" "/x" VUndefined aborted).1 =
    Throw (typed_error (VStr "Request timeout") 408) /\
  exists e,
    (request this "GET" "/x" VUndefined denied).1 = Throw (ThrownKeyEnvError e) /\
    err_status e = 403.
Proof.
  intros this aborted denied. split.
  - destruct (request this "GET" "/x" VUndefined aborted) as [c w1] eqn:Hrun.
    assert (exists thrown, c = Throw thrown) as [thrown ->].
    { vm_compute in Hrun. injection Hrun as <- _. by eexists. }
    destruct (request_throws this "GET" "/x" VUndefined aborted thrown w1 Hrun)
      as [(e & Hfetch & _)|[(msg & _ & ->)|[(name & msg & Hname & Hfetch & _)|
          [(x & Hfetch & _)|[(response & Hfetch & _)|(response & Hfetch & _)]]]]];
      [discriminate Hfetch|reflexivity| |discriminate Hfetch
      |discriminate Hfetch|discriminate Hfetch].
    injection Hfetch as <- _ _. by destruct Hname.
  - destruct (request_throws this "GET" "/x" VUndefined denied
                (typed_error (VStr "Access denied") 403)
                (request this "GET" "/x" VUndefined denied).2 eq_refl)
      as [(e & Hfetch & _)|[(msg & Hfetch & _)|[(name & msg & _ & Hfetch & _)|
          [(x & Hfetch & _)|[(response & Hfetch & _ & Hcases)|(response & Hfetch & Hok & _)]]]]];
      try discriminate Hfetch.
    + injection Hfetch as <-.
      destruct Hcases as [(failure & Hjson & _)|[(parsed & e & _ & _ & _ & He & Hstatus)
                          |(parsed & e & _ & _ & He & Hstatus)]].
      * discriminate Hjson.
      * exists e. by rewrite <- He.
      * injection He as <-. discriminate Hstatus.
    + injection Hfetch as <-. discriminate Hok.
Defined.

(** ** The requests of the methods *)

Lemma sends_as_pure {A} this (op : Async A) :
  (forall w, sent (op w).2 = sent w /\ network (op w).2 = network w) ->
  sends_as this op.
Proof.
  intros Hop w. destruct (Hop w) as [Hsent Hnet]. exists [].
  by rewrite app_nil_r.
Qed.

Lemma sends_as_ret {A} this (a : A) : sends_as this (ret a).
Proof. by apply sends_as_pure. Qed.

Lemma sends_as_throw {A} this e : sends_as this (@throw A e).
Proof. by apply sends_as_pure. Qed.

Lemma sends_as_eval {A} this (c : Completion A) : sends_as this (eval c).
Proof. by apply sends_as_pure. Qed.

Lemma sends_as_Date_now this : sends_as this Date_now.
Proof. by apply sends_as_pure. Qed.

Lemma sends_as_cache_get this key : sends_as this (cache_get key).
Proof. by apply sends_as_pure. Qed.

Lemma sends_as_cache_set this key entry : sends_as this (cache_set key entry).
Proof. by apply sends_as_pure. Qed.

Lemma sends_as_cache_delete this key : sends_as this (cache_delete key).
Proof. by apply sends_as_pure. Qed.

Lemma sends_as_clearCache this projectId environment :
  sends_as this (clearCache projectId environment).
Proof.
  apply sends_as_pure. intros w.
  by destruct (clearCache_frame projectId environment w) as (? & _ & ?).
Qed.

Lemma sends_as_request this method path body :
  sends_as this (request this method path body).
Proof.
  intros w. exists [request_init this method path body].
  destruct (request this method path body w) as [c w'] eqn:Hrun.
  apply request_frame in Hrun as (_ & Hsent & Hnet). simpl.
  split_and!; [done| |done].
  apply Forall_singleton. split; [done|]. by exists path.
Qed.

Lemma sends_as_bind {A B} this (m : Async A) (k : A -> Async B) :
  sends_as this m -> (forall a, sends_as this (k a)) -> sends_as this (bind m k).
Proof.
  intros Hm Hk w. unfold bind.
  destruct (Hm w) as (first & Hsent & Hall & Hnet).
  destruct (m w) as [[a|e] w1]; simpl in *; [|eauto].
  destruct (Hk a w1) as (then_ & Hsent' & Hall' & Hnet').
  exists (first ++ then_). rewrite Hsent', Hsent, Hnet', Hnet.
  split_and!; [by rewrite app_assoc| |done]. by apply Forall_app.
Qed.

Lemma sends_as_try_catch {A} this (m : Async A) (handler : Thrown -> Async A) :
  sends_as this m -> (forall e, sends_as this (handler e)) ->
  sends_as this (try_catch m handler).
Proof.
  intros Hm Hk w. unfold try_catch.
  destruct (Hm w) as (first & Hsent & Hall & Hnet).
  destruct (m w) as [[a|e] w1]; simpl in *; [eauto|].
  destruct (Hk e w1) as (then_ & Hsent' & Hall' & Hnet').
  exists (first ++ then_). rewrite Hsent', Hsent, Hnet', Hnet.
  split_and!; [by rewrite app_assoc| |done]. by apply Forall_app.
Qed.

Create HintDb sends_as.
#[local] Hint Resolve sends_as_ret sends_as_throw sends_as_eval sends_as_Date_now
  sends_as_cache_get sends_as_cache_set sends_as_cache_delete sends_as_clearCache
  sends_as_request : sends_as.

(** Takes a method apart along its binds and its branches. *)
Ltac sends_as :=
  repeat first
    [ apply sends_as_bind; [|intros ?]
    | apply sends_as_try_catch; [|intros ?]
    | match goal with
      | |- sends_as _ (if ?b then _ else _) => destruct b
      | |- sends_as _ (match ?x with _ => _ end) => destruct x
      end
    | solve [auto with sends_as] ].

(** X3.  Whatever a method of the client sends, it sends to a path under the
    client's base URL and with exactly three headers: [Authorization] with
    the token of the client after [Bearer ], [Content-Type] with
    [application/json] and [User-Agent] with [keyenv-node/1.0.0].  No method
    drops a request that was sent before or changes the network. *)
Theorem requests_carry_token this projectId environment key value description
    items overwrite userId role permissions defaults teamId name inheritsFrom :
  sends_as this (getCurrentUser this) /\
  sends_as this (validateToken this) /\
  sends_as this (listProjects this) /\
  sends_as this (getProject this projectId) /\
  sends_as this (createProject this teamId name) /\
  sends_as this (deleteProject this projectId) /\
  sends_as this (listEnvironments this projectId) /\
  sends_as this (createEnvironment this projectId name inheritsFrom) /\
  sends_as this (deleteEnvironment this projectId environment) /\
  sends_as this (listSecrets this projectId environment) /\
  sends_as this (exportSecrets this projectId environment) /\
  sends_as this (getSecret this projectId environment key) /\
  sends_as this (createSecret this projectId environment key value description) /\
  sends_as this (updateSecret this projectId environment key value description) /\
  sends_as this (setSecret this projectId environment key value description) /\
  sends_as this (deleteSecret this projectId environment key) /\
  sends_as this (getSecretHistory this projectId environment key) /\
  sends_as this (bulkImport this projectId environment items overwrite) /\
  sends_as this (listPermissions this projectId environment) /\
  sends_as this (setPermission this projectId environment userId role) /\
  sends_as this (deletePermission this projectId environment userId) /\
  sends_as this (bulkSetPermissions this projectId environment permissions) /\
  sends_as this (getMyPermissions this projectId) /\
  sends_as this (getProjectDefaults this projectId) /\
  sends_as this (setProjectDefaults this projectId defaults).
Proof.
  split_and!;
    unfold getCurrentUser, validateToken, getCurrentUser, listProjects, getProject,
      createProject, deleteProject, listEnvironments, createEnvironment,
      deleteEnvironment, listSecrets, exportSecrets, getSecret, createSecret,
      updateSecret, setSecret, updateSecret, createSecret, deleteSecret,
      getSecretHistory, bulkImport, listPermissions, setPermission, deletePermission,
      bulkSetPermissions, getMyPermissions, getProjectDefaults, setProjectDefaults;
    sends_as.
Qed.

Lemma requests_carry_token_witness :
  let this := example_client 0 in
  let w := new_world missing_key_network in
  exists update create,
    sent (setSecret this "proj-1" "production" "NEW_KEY" "new-value" None w).2 =
      [update; create] /\
    method update = "PUT" /\ method create = "POST" /\
    headers update = [("Authorization", "Bearer test-token");
                      ("Content-Type", "application/json");
                      ("User-Agent", "keyenv-node/1.0.0")] /\
    headers create = [("Authorization", "Bearer test-token");
                      ("Content-Type", "application/json");
                      ("User-Agent", "keyenv-node/1.0.0")].
Proof.
  intros this w.
  pose proof (requests_carry_token this "proj-1" "production" "NEW_KEY" "new-value" None
                [] None "" read [] [] "" "" None) as Hall.
  destruct Hall as (_ & _ & _ & _ & _ & _ & _ & _ & _ & _ & _ & _ & _ & _ & Hset & _).
  destruct (Hset w) as (requests & Hsent & Hrequests & _).
  assert (exists update create,
            sent (setSecret this "proj-1" "production" "NEW_KEY" "new-value" None w).2 =
              [update; create] /\ method update = "PUT" /\ method create = "POST")
    as (update & create & Hrun & Hput & Hpost).
  { eexists _, _. vm_compute. split_and!; reflexivity. }
  exists update, create. rewrite Hrun in Hsent. simpl in Hsent. subst requests.
  apply Forall_cons in Hrequests as [[Hupdate _] Hrequests].
  apply Forall_cons in Hrequests as [[Hcreate _] _].
  split_and!; [exact Hrun|exact Hput|exact Hpost|exact Hupdate|exact Hcreate].
Defined.

(** ** Methods that are never answered from the cache *)

Lemma sends_once_request {A} this method path body (k : JSValue -> Completion A) :
  sends_once
    (bind (request this method path body) (fun response => eval (k response)))
    (request_init this method path body).
Proof.
  intros w. unfold bind, eval.
  destruct (request this method path body w) as [[response|error] w1] eqn:Hcall;
    by apply request_frame in Hcall as (_ & ? & _).
Qed.

Lemma uncached_request {A} this method path body (k : JSValue -> Completion A) :
  leaves_cache this
    (bind (request this method path body) (fun response => eval (k response))) /\
  sends_once
    (bind (request this method path body) (fun response => eval (k response)))
    (request_init this method path body).
Proof. split; [apply leaves_cache_request|apply sends_once_request]. Qed.

(** X4.  Only [exportSecrets] is cached.  Each of the reading and creating
    methods below sends exactly one request in every call, also when the
    cache holds an unexpired export of the same project and environment, and
    leaves the cache as it is. *)
Theorem reads_are_not_cached this projectId environment key teamId name inheritsFrom :
  (leaves_cache this (getCurrentUser this) /\
   sends_once (getCurrentUser this)
     (request_init this "GET" "/api/v1/users/me" VUndefined)) /\
  (leaves_cache this (listProjects this) /\
   sends_once (listProjects this)
     (request_init this "GET" "/api/v1/projects" VUndefined)) /\
  (leaves_cache this (getProject this projectId) /\
   sends_once (getProject this projectId)
     (request_init this "GET" ("/api/v1/projects/" +:+ projectId) VUndefined)) /\
  (leaves_cache this (createProject this teamId name) /\
   sends_once (createProject this teamId name)
     (request_init this "POST" "/api/v1/projects"
        (VObj [("team_id", VStr teamId); ("name", VStr name)]))) /\
  (leaves_cache this (listEnvironments this projectId) /\
   sends_once (listEnvironments this projectId)
     (request_init this "GET"
        (("/api/v1/projects/" +:+ projectId) +:+ "/environments") VUndefined)) /\
  (leaves_cache this (createEnvironment this projectId name inheritsFrom) /\
   sends_once (createEnvironment this projectId name inheritsFrom)
     (request_init this "POST"
        (("/api/v1/projects/" +:+ projectId) +:+ "/environments")
        (VObj [("name", VStr name); ("inherits_from", optional inheritsFrom)]))) /\
  (leaves_cache this (listSecrets this projectId environment) /\
   sends_once (listSecrets this projectId environment)
     (request_init this "GET"
        (environment_path projectId environment +:+ "/secrets") VUndefined)) /\
  (leaves_cache this (getSecret this projectId environment key) /\
   sends_once (getSecret this projectId environment key)
     (request_init this "GET"
        (environment_path projectId environment +:+ "/secrets/" +:+ key) VUndefined)) /\
  (leaves_cache this (getSecretHistory this projectId environment key) /\
   sends_once (getSecretHistory this projectId environment key)
     (request_init this "GET" (history_path projectId environment key) VUndefined)) /\
  (leaves_cache this (listPermissions this projectId environment) /\
   sends_once (listPermissions this projectId environment)
     (request_init this "GET"
        (environment_path projectId environment +:+ "/permissions") VUndefined)) /\
  (leaves_cache this (getProjectDefaults this projectId) /\
   sends_once (getProjectDefaults this projectId)
     (request_init this "GET"
        (("/api/v1/projects/" +:+ projectId) +:+ "/permissions/defaults") VUndefined)).
Proof.
  split_and!;
    apply (uncached_request _ _ _ _ (fun response => prop response "data")).
Qed.

Lemma reads_are_not_cached_witness :
  let this := example_client 300 in
  let entry := {| secrets := VArr [secret_object "KEY1" "cached"]; expiresAt := 301200 |} in
  let w :=
    {| secretsCache := <["proj-1:production" := entry]> ∅;
       clock := 2000; sent := [];
       network := always 2100 (Return (json_response 200
                    (VObj [("data", secret_object "KEY1" "fetched")]))) |} in
  getSecret this "proj-1" "production" "KEY1" w =
    (Return (secret_object "KEY1" "fetched"),
     {| secretsCache := <["proj-1:production" := entry]> ∅;
        clock := 2100;
        sent := [request_init this "GET"
                   "/api/v1/projects/proj-1/environments/production/secrets/KEY1"
                   VUndefined];
        network := network w |}) /\
  exportSecrets this "proj-1" "production"
      (at_time 3000 (getSecret this "proj-1" "production" "KEY1" w).2) =
    (Return (secrets entry),
     at_time 3000 (getSecret this "proj-1" "production" "KEY1" w).2).
Proof.
  intros this entry w.
  destruct (reads_are_not_cached this "proj-1" "production" "KEY1" "" "" None)
    as (_ & _ & _ & _ & _ & _ & _ & [(_ & _ & Hserved) Honce] & _).
  split; [reflexivity|].
  apply Hserved; [simpl; lia|reflexivity|simpl; lia].
Defined.

(** ** Responses without content *)

Lemma request_no_content this method path body w response w' :
  fetch (request_init this method path body) w = (Return response, w') ->
  ok response = true -> status response = 204 ->
  request this method path body w = (Return VUndefined, w').
Proof. unfold request. by intros -> -> ->. Qed.

Lemma no_content_throws_data this method path body :
  no_content_throws this
    (bind (request this method path body)
       (fun response => eval (prop response "data")))
    method path body.
Proof.
  intros w response w' Hfetch Hok H204. unfold bind.
  by rewrite (request_no_content _ _ _ _ _ _ _ Hfetch Hok H204).
Qed.

Lemma no_content_throws_cleared this method path body projectId environment :
  no_content_throws this
    (bind (request this method path body)
       (fun response =>
          bind (clearCache (Some projectId) (Some environment))
            (fun _ => eval (prop response "data"))))
    method path body.
Proof.
  intros w response w' Hfetch Hok H204.
  rewrite request_then_clearCache.
  by rewrite (request_no_content _ _ _ _ _ _ _ Hfetch Hok H204).
Qed.

(** X5.  A response without content (ok, status 204) makes the deleting
    methods resolve, but makes every method that returns [response.data]
    throw: reading [data] of [undefined] raises a [TypeError], which is not
    a [KeyEnvError]. *)
Theorem no_content this projectId environment key value description items overwrite
    userId role permissions defaults :
  no_content_resolves this (deleteSecret this projectId environment key) "DELETE"
    (environment_path projectId environment +:+ "/secrets/" +:+ key) VUndefined /\
  no_content_resolves this (deleteProject this projectId) "DELETE"
    (projects_path projectId) VUndefined /\
  no_content_resolves this (deleteEnvironment this projectId environment) "DELETE"
    (environment_path projectId environment) VUndefined /\
  no_content_resolves this (deletePermission this projectId environment userId) "DELETE"
    (environment_path projectId environment +:+ "/permissions/" +:+ userId) VUndefined /\
  no_content_throws this (getSecret this projectId environment key) "GET"
    (environment_path projectId environment +:+ "/secrets/" +:+ key) VUndefined /\
  no_content_throws this (listSecrets this projectId environment) "GET"
    (environment_path projectId environment +:+ "/secrets") VUndefined /\
  no_content_throws this (getSecretHistory this projectId environment key) "GET"
    (history_path projectId environment key) VUndefined /\
  no_content_throws this (createSecret this projectId environment key value description)
    "POST" (environment_path projectId environment +:+ "/secrets")
    (VObj [("key", VStr key); ("value", VStr value);
           ("description", optional description)]) /\
  no_content_throws this (updateSecret this projectId environment key value description)
    "PUT" (environment_path projectId environment +:+ "/secrets/" +:+ key)
    (VObj [("value", VStr value); ("description", optional description)]) /\
  no_content_throws this (setSecret this projectId environment key value description)
    "PUT" (environment_path projectId environment +:+ "/secrets/" +:+ key)
    (VObj [("value", VStr value); ("description", optional description)]) /\
  no_content_throws this (bulkImport this projectId environment items overwrite)
    "POST" (environment_path projectId environment +:+ "/secrets/bulk")
    (VObj [("secrets", VArr (map bulk_item items));
           ("overwrite", VBool (default false overwrite))]) /\
  no_content_throws this (setPermission this projectId environment userId role)
    "PUT" (environment_path projectId environment +:+ "/permissions/" +:+ userId)
    (VObj [("role", VStr (role_string role))]) /\
  no_content_throws this (bulkSetPermissions this projectId environment permissions)
    "PUT" (environment_path projectId environment +:+ "/permissions")
    (bulkSetPermissions_body permissions) /\
  no_content_throws this (setProjectDefaults this projectId defaults)
    "PUT" (projects_path projectId +:+ "/permissions/defaults")
    (setProjectDefaults_body defaults).
Proof.
  assert (forall method path body (k : JSValue -> Async unit),
            (forall w, (k VUndefined w).1 = Return tt) ->
            no_content_resolves this (bind (request this method path body) k)
              method path body) as Hresolves.
  { intros method path body k Hk w response w' Hfetch Hok H204. unfold bind.
    rewrite (request_no_content _ _ _ _ _ _ _ Hfetch Hok H204). apply Hk. }
  split_and!; try apply no_content_throws_data; try apply no_content_throws_cleared.
  - apply Hresolves. intros w. apply clearCache_returns.
  - by apply Hresolves.
  - by apply Hresolves.
  - by apply Hresolves.
  - intros w response w' Hfetch Hok H204. unfold setSecret, try_catch.
    pose proof (no_content_throws_cleared this "PUT"
      (environment_path projectId environment +:+ "/secrets/" +:+ key)
      (VObj [("value", VStr value); ("description", optional description)])
      projectId environment w response w' Hfetch Hok H204) as Hupdate.
    change (bind _ _ w) with
      (updateSecret this projectId environment key value description w) in Hupdate.
    destruct (updateSecret this projectId environment key value description w)
      as [c w1]. simpl in Hupdate. by subst c.
Qed.

Lemma no_content_witness :
  let this := example_client 0 in
  let w := new_world (always 5 (Return {| ok := true; status := 204; statusText := "";
                                          json := Throw (ThrownError "SyntaxError" "") |})) in
  (deleteSecret this "proj-1" "production" "KEY" w).1 = Return tt /\
  (updateSecret this "proj-1" "production" "KEY" "v" None w).1 =
    Throw (ThrownError "TypeError" "Cannot read properties of undefined (reading 'data')").
Proof.
  intros this w.
  destruct (no_content this "proj-1" "production" "KEY" "v" None [] None "" read [] [])
    as (Hdelete & _ & _ & _ & _ & _ & _ & _ & Hupdate & _).
  split.
  - by apply (Hdelete w _ _ eq_refl).
  - by apply (Hupdate w _ _ eq_refl).
Defined.

(** ** The cache, from one call to the next *)

(** X6.  What [exportSecrets] returns with a TTL above 0 is in the cache
    afterwards, under the key of the pair: every later call before the entry
    expires returns the same value and sends nothing.  When the value was
    fetched, the entry expires TTL seconds after the fetch. *)
Theorem export_is_cached this projectId environment w data w' :
  0 < cacheTtl this ->
  exportSecrets this projectId environment w = (Return data, w') ->
  exists entry,
    secretsCache w' !! getCacheKey projectId environment = Some entry /\
    secrets entry = data /\
    (sent w' <> sent w -> expiresAt entry = clock w' + cacheTtl this * 1000) /\
    forall t, t < expiresAt entry ->
      exportSecrets this projectId environment (at_time t w') =
        (Return data, at_time t w').
Proof.
  intros Httl Hrun.
  assert (forall entry,
            secretsCache w' !! getCacheKey projectId environment = Some entry ->
            secrets entry = data ->
            forall t, t < expiresAt entry ->
              exportSecrets this projectId environment (at_time t w') =
                (Return data, at_time t w')) as Hlater.
  { intros entry Hentry <- t Ht. apply exportSecrets_hit, fresh_entry_Some. by simpl. }
  destruct (fresh_entry this projectId environment w) as [entry|] eqn:Hfresh.
  - rewrite (exportSecrets_hit _ _ _ _ _ Hfresh) in Hrun. injection Hrun as <- <-.
    apply fresh_entry_Some in Hfresh as (_ & Hentry & _).
    exists entry. split_and!; [done|done|done|by apply Hlater].
  - rewrite (exportSecrets_miss _ _ _ _ Hfresh) in Hrun.
    destruct (request this "GET" (export_path projectId environment) VUndefined w)
      as [[response|error] w1]; simpl in Hrun; [|done].
    destruct (prop response "data") as [data'|]; [|done].
    destruct (Z.ltb_spec 0 (cacheTtl this)); [|lia].
    injection Hrun as <- <-.
    eexists. split; [apply lookup_insert_eq|].
    split_and!; [done|done|].
    apply Hlater; [apply lookup_insert_eq|done].
Qed.

Lemma export_is_cached_witness :
  let this := example_client 300 in
  let exported := VArr [secret_object "KEY1" "value1"] in
  let w := new_world (always 1200 (Return (json_response 200 (VObj [("data", exported)])))) in
  exists entry,
    secretsCache (exportSecrets this "proj-1" "production" w).2
      !! getCacheKey "proj-1" "production" = Some entry /\
    secrets entry = exported /\
    (sent (exportSecrets this "proj-1" "production" w).2 <> sent w ->
       expiresAt entry = 1200 + 300 * 1000) /\
    forall t, t < expiresAt entry ->
      exportSecrets this "proj-1" "production"
          (at_time t (exportSecrets this "proj-1" "production" w).2) =
        (Return exported, at_time t (exportSecrets this "proj-1" "production" w).2).
Proof.
  intros this exported w.
  apply (export_is_cached this "proj-1" "production" w exported); [simpl; lia|].
  vm_compute. reflexivity.
Defined.

Lemma exportSecrets_lookup_None this projectId environment w t :
  secretsCache w !! getCacheKey projectId environment = None ->
  sent (exportSecrets this projectId environment (at_time t w)).2 =
    sent w ++ [request_init this "GET" (export_path projectId environment) VUndefined].
Proof.
  intros Hnone.
  assert (fresh_entry this projectId environment (at_time t w) = None) as Hfresh.
  { apply fresh_entry_None. right. by left. }
  by apply exportSecrets_miss_sent in Hfresh as [-> _].
Qed.

Lemma forces_refetch_cleared {A} this method path body projectId environment
    (k : JSValue -> Completion A) :
  forces_refetch this projectId environment
    (bind (request this method path body)
       (fun response =>
          bind (clearCache (Some projectId) (Some environment))
            (fun _ => eval (k response)))).
Proof.
  intros w a w' t. rewrite request_then_clearCache.
  destruct (request this method path body w) as [[response|error] w1]; [|done].
  unfold eval. intros [= _ <-].
  pose proof (clearCache_pair_gone projectId environment w1) as Hgone.
  split; [done|]. by apply exportSecrets_lookup_None.
Qed.

(** X7.  After [createSecret], [updateSecret], [setSecret], [deleteSecret]
    or [bulkImport] has succeeded, the cache has no entry for the pair, and
    the next [exportSecrets] for the pair sends its request, however much of
    the TTL was left. *)
Theorem export_after_mutation this projectId environment key value description
    items overwrite :
  forces_refetch this projectId environment
    (createSecret this projectId environment key value description) /\
  forces_refetch this projectId environment
    (updateSecret this projectId environment key value description) /\
  forces_refetch this projectId environment
    (setSecret this projectId environment key value description) /\
  forces_refetch this projectId environment
    (deleteSecret this projectId environment key) /\
  forces_refetch this projectId environment
    (bulkImport this projectId environment items overwrite).
Proof.
  assert (forces_refetch this projectId environment
            (createSecret this projectId environment key value description)) as Hcreate
    by apply (forces_refetch_cleared _ _ _ _ _ _ (fun response => prop response "data")).
  assert (forces_refetch this projectId environment
            (updateSecret this projectId environment key value description)) as Hupdate
    by apply (forces_refetch_cleared _ _ _ _ _ _ (fun response => prop response "data")).
  split_and!; [done|done| | |].
  - intros w a w' t. unfold setSecret, try_catch.
    pose proof (Hupdate w) as Hu.
    destruct (updateSecret this projectId environment key value description w)
      as [[v|error] w1].
    + intros [= <- <-]. exact (Hu v w1 t eq_refl).
    + destruct error as [e|name msg|x]; [|done|done].
      destruct (err_status e =? 404); [|done]. apply Hcreate.
  - intros w a w' t. unfold deleteSecret, bind.
    destruct (request _ _ _ _ w) as [[response|error] w1]; [|done].
    intros Hclear.
    pose proof (clearCache_pair_gone projectId environment w1) as Hgone.
    rewrite Hclear in Hgone. simpl in Hgone.
    split; [done|]. by apply exportSecrets_lookup_None.
  - apply (forces_refetch_cleared _ _ _ _ _ _ (fun response => prop response "data")).
Qed.

Lemma export_after_mutation_witness :
  let this := example_client 300 in
  let entry := {| secrets := VArr [secret_object "KEY1" "old"]; expiresAt := 301200 |} in
  let w :=
    {| secretsCache := <["proj-1:production" := entry]> ∅;
       clock := 2000; sent := [];
       network := always 2100 (Return (json_response 200
                    (VObj [("data", secret_object "KEY1" "new")]))) |} in
  exportSecrets this "proj-1" "production" w = (Return (secrets entry), w) /\
  sent (exportSecrets this "proj-1" "production"
          (at_time 2200 (updateSecret this "proj-1" "production" "KEY1" "new" None w).2)).2 =
    [update_request this "proj-1" "production" "KEY1" "new" None;
     request_init this "GET" (export_path "proj-1" "production") VUndefined].
Proof.
  intros this entry w. split; [reflexivity|].
  destruct (export_after_mutation this "proj-1" "production" "KEY1" "new" None [] None)
    as (_ & Hupdate & _).
  destruct (Hupdate w (secret_object "KEY1" "new")
              (updateSecret this "proj-1" "production" "KEY1" "new" None w).2 2200)
    as [_ Hsent]; [reflexivity|].
  rewrite Hsent. reflexivity.
Defined.

(** ** What a call changes in the cache *)

Lemma touches_only_cleared {A} this method path body projectId environment
    (k : JSValue -> Completion A) :
  projectId <> "" -> environment <> "" ->
  (forall response e, k response <> Throw (ThrownKeyEnvError e)) ->
  touches_only projectId environment
    (bind (request this method path body)
       (fun response =>
          bind (clearCache (Some projectId) (Some environment))
            (fun _ => eval (k response)))).
Proof.
  intros Hp He Hk. split.
  - intros w key Hkey. rewrite request_then_clearCache.
    destruct (request this method path body w) as [[response|error] w1] eqn:Hcall;
      apply request_frame in Hcall as (Hcache & _); simpl; [|by rewrite Hcache].
    unfold clearCache.
    rewrite (truthy_string_true _ Hp), (truthy_string_true _ He). simpl.
    by rewrite lookup_delete_ne, Hcache.
  - intros w e w'. rewrite request_then_clearCache.
    destruct (request this method path body w) as [[response|error] w1] eqn:Hcall;
      apply request_frame in Hcall as (Hcache & _).
    + unfold eval. intros [= Hthrown _]. by destruct (Hk response e).
    + by intros [= _ <-].
Qed.

Lemma prop_not_typed v name e : prop v name <> Throw (ThrownKeyEnvError e).
Proof. by destruct v. Qed.

(** X8.  With a non-empty project identifier and a non-empty environment
    name, [createSecret], [updateSecret], [setSecret], [deleteSecret] and
    [bulkImport] change no entry of the cache but the one of their own pair:
    the exports cached for other environments and projects stay.  And when
    one of them fails with a [KeyEnvError], the whole cache is as it was. *)
Theorem mutation_touches_own_pair this projectId environment key value description
    items overwrite :
  projectId <> "" -> environment <> "" ->
  touches_only projectId environment
    (createSecret this projectId environment key value description) /\
  touches_only projectId environment
    (updateSecret this projectId environment key value description) /\
  touches_only projectId environment
    (setSecret this projectId environment key value description) /\
  touches_only projectId environment
    (deleteSecret this projectId environment key) /\
  touches_only projectId environment
    (bulkImport this projectId environment items overwrite).
Proof.
  intros Hp He.
  assert (touches_only projectId environment
            (createSecret this projectId environment key value description))
    as Hcreate.
  { apply (touches_only_cleared _ _ _ _ _ _ (fun response => prop response "data"));
      [done|done|]. intros response e. apply prop_not_typed. }
  assert (touches_only projectId environment
            (updateSecret this projectId environment key value description))
    as Hupdate.
  { apply (touches_only_cleared _ _ _ _ _ _ (fun response => prop response "data"));
      [done|done|]. intros response e. apply prop_not_typed. }
  split_and!; [done|done| | |].
  - destruct Hcreate as [Hcreate1 Hcreate2], Hupdate as [Hupdate1 Hupdate2]. split.
    + intros w k Hk. unfold setSecret, try_catch.
      specialize (Hupdate1 w k Hk).
      destruct (updateSecret this projectId environment key value description w)
        as [[v|error] w1]; [done|].
      destruct error as [e|name msg|x]; [|done|done].
      destruct (err_status e =? 404); [|done].
      rewrite (Hcreate1 w1 k Hk). done.
    + intros w e w'. unfold setSecret, try_catch.
      specialize (Hupdate2 w).
      destruct (updateSecret this projectId environment key value description w)
        as [[v|error] w1]; [done|].
      destruct error as [e0|name msg|x]; [|done|done].
      specialize (Hupdate2 e0 w1 eq_refl).
      destruct (err_status e0 =? 404).
      * intros Hrun. rewrite <- Hupdate2. by apply (Hcreate2 w1 e w').
      * by intros [= _ <-].
  - split.
    + intros w k Hk. unfold deleteSecret, bind.
      destruct (request _ _ _ _ w) as [[response|error] w1] eqn:Hcall;
        apply request_frame in Hcall as (Hcache & _); simpl; [|by rewrite Hcache].
      unfold clearCache.
      rewrite (truthy_string_true _ Hp), (truthy_string_true _ He). simpl.
      by rewrite lookup_delete_ne, Hcache.
    + intros w e w'. unfold deleteSecret, bind.
      destruct (request _ _ _ _ w) as [[response|error] w1] eqn:Hcall;
        apply request_frame in Hcall as (Hcache & _).
      * pose proof (clearCache_returns (Some projectId) (Some environment) w1) as Hret.
        intros Hrun. by rewrite Hrun in Hret.
      * by intros [= _ <-].
  - apply (touches_only_cleared _ _ _ _ _ _ (fun response => prop response "data"));
      [done|done|]. intros response e. apply prop_not_typed.
Qed.

Lemma mutation_touches_own_pair_witness :
  let this := example_client 300 in
  let entry x := {| secrets := VArr [secret_object "KEY1" x]; expiresAt := 301200 |} in
  let w :=
    {| secretsCache :=
         <["proj-1:production" := entry "a"]> (<["proj-1:staging" := entry "b"]> ∅);
       clock := 2000; sent := [];
       network := always 2100 (Return (json_response 200
                    (VObj [("data", secret_object "KEY1" "new")]))) |} in
  secretsCache (setSecret this "proj-1" "production" "KEY1" "new" None w).2
    !! "proj-1:staging" = Some (entry "b") /\
  secretsCache (setSecret this "proj-1" "production" "KEY1" "new" None w).2
    !! "proj-1:production" = None.
Proof.
  intros this entry w.
  destruct (mutation_touches_own_pair this "proj-1" "production" "KEY1" "new" None [] None)
    as (_ & _ & [Hset _] & _); [discriminate|discriminate|].
  split; [|reflexivity].
  rewrite Hset; [reflexivity|discriminate].
Defined.

Lemma clearCache_subseteq projectId environment w :
  secretsCache (clearCache projectId environment w).2 ⊆ secretsCache w.
Proof.
  apply map_subseteq_spec. intros k entry. unfold clearCache.
  destruct projectId as [p|]; [|simpl; by rewrite lookup_empty].
  destruct (truthy_string p); [|simpl; by rewrite lookup_empty].
  assert (secretsCache (cache_delete_startsWith (p +:+ ":") w).2 !! k = Some entry ->
          secretsCache w !! k = Some entry) as Hproject.
  { rewrite cache_delete_startsWith_lookup. by destruct (startsWith k (p +:+ ":")). }
  destruct environment as [e|]; [|done].
  destruct (truthy_string e); [|done].
  simpl. by intros [_ ?]%lookup_delete_Some.
Qed.

(** X9.  [clearCache] only removes entries: whatever its arguments, every
    entry left in the cache was there before, unchanged, and the clock, the
    requests sent and the network are as before.  An empty string counts as
    an argument that is not given: with an empty environment name the whole
    project is cleared, with an empty project identifier the whole cache. *)
Theorem clearCache_only_removes projectId environment w :
  secretsCache (clearCache projectId environment w).2 ⊆ secretsCache w /\
  clock (clearCache projectId environment w).2 = clock w /\
  sent (clearCache projectId environment w).2 = sent w /\
  network (clearCache projectId environment w).2 = network w /\
  clearCache projectId (Some "") w = clearCache projectId None w /\
  clearCache (Some "") environment w = clearCache None None w /\
  secretsCache (clearCache (Some "") environment w).2 = ∅.
Proof.
  split_and!.
  - apply clearCache_subseteq.
  - by destruct (clearCache_frame projectId environment w) as (_ & ? & _).
  - by destruct (clearCache_frame projectId environment w) as (? & _).
  - by destruct (clearCache_frame projectId environment w) as (_ & _ & ?).
  - unfold clearCache. destruct projectId as [p|]; [|done]. by destruct (truthy_string p).
  - done.
  - done.
Qed.

(** X10.  [exportSecrets] changes no entry of the cache but the one under
    the key of its own pair; and when it fails with a TTL above 0, no entry
    is left under that key, so that a failure is never answered from the
    cache later. *)
Theorem exportSecrets_touches_own_key this projectId environment w :
  (forall k, k <> getCacheKey projectId environment ->
     secretsCache (exportSecrets this projectId environment w).2 !! k =
       secretsCache w !! k) /\
  (forall error, 0 < cacheTtl this ->
     (exportSecrets this projectId environment w).1 = Throw error ->
     secretsCache (exportSecrets this projectId environment w).2
       !! getCacheKey projectId environment = None).
Proof.
  destruct (fresh_entry this projectId environment w) as [entry|] eqn:Hfresh.
  { rewrite (exportSecrets_hit _ _ _ _ _ Hfresh). by split. }
  rewrite (exportSecrets_miss _ _ _ _ Hfresh).
  destruct (request this "GET" (export_path projectId environment) VUndefined w)
    as [c w1] eqn:Hcall.
  apply request_frame in Hcall as (Hcache & _). simpl. split.
  - intros k Hk.
    destruct c as [response|error]; [destruct (prop response "data")|];
      destruct (0 <? cacheTtl this); simpl; rewrite ?Hcache;
      by rewrite ?lookup_insert_ne, ?lookup_delete_ne.
  - intros error Httl.
    destruct (Z.ltb_spec 0 (cacheTtl this)); [|lia].
    destruct c as [response|error']; [destruct (prop response "data")|];
      simpl; try done; intros _; apply lookup_delete_eq.
Qed.

Lemma exportSecrets_touches_own_key_witness :
  let this := example_client 300 in
  let entry x := {| secrets := VArr [secret_object "KEY1" x]; expiresAt := 3000 |} in
  let w :=
    {| secretsCache :=
         <["proj-1:production" := entry "a"]> (<["proj-1:staging" := entry "b"]> ∅);
       clock := 5000; sent := [];
       network := always 5100 (Return (json_response 500 (VObj [("error", VStr "boom")]))) |} in
  secretsCache (exportSecrets this "proj-1" "production" w).2 !! "proj-1:staging" =
    Some (entry "b") /\
  secretsCache (exportSecrets this "proj-1" "production" w).2 !! "proj-1:production" = None.
Proof.
  intros this entry w.
  destruct (exportSecrets_touches_own_key this "proj-1" "production" w) as [Hother Hown].
  split.
  - rewrite Hother; [reflexivity|discriminate].
  - apply (Hown (typed_error (VStr "boom") 500)); [simpl; lia|reflexivity].
Defined.

(** ** Entries do not outlive the TTL *)

Lemma within_ttl_shrink this w w' :
  secretsCache w' ⊆ secretsCache w -> clock w <= clock w' ->
  within_ttl this w -> within_ttl this w'.
Proof.
  intros Hsub Hclock Hw key entry Hentry.
  assert (secretsCache w !! key = Some entry) as Hbefore
    by by eapply lookup_weaken.
  apply Hw in Hbefore. lia.
Qed.

Lemma request_clock this method path body w :
  clock (request this method path body w).2 =
  (network w (sent w) (request_init this method path body)).1.
Proof. by rewrite request_world, fetch_spec. Qed.

Lemma keeps_within_ttl_cleared {A} this method path body projectId environment
    (k : JSValue -> Completion A) :
  keeps_within_ttl this
    (bind (request this method path body)
       (fun response =>
          bind (clearCache (Some projectId) (Some environment))
            (fun _ => eval (k response)))).
Proof.
  intros w Hw Hclock. rewrite request_then_clearCache.
  pose proof (request_clock this method path body w) as Ht.
  destruct (request this method path body w) as [[response|error] w1] eqn:Hcall;
    apply request_frame in Hcall as (Hcache & _); cbn [snd] in Ht.
  - unfold eval. cbn [snd].
    pose proof (clearCache_subseteq (Some projectId) (Some environment) w1) as Hsub.
    destruct (clearCache_frame (Some projectId) (Some environment) w1) as (_ & Hsame & _).
    apply (within_ttl_shrink this w); [by rewrite <- Hcache| |done].
    rewrite Hsame, Ht. apply Hclock.
  - cbn [snd]. apply (within_ttl_shrink this w); [by rewrite Hcache| |done].
    rewrite Ht. apply Hclock.
Qed.

(** X11.  No cached export outlives its TTL.  If no entry of the cache
    expires later than TTL seconds after the current time, this is still so
    after [exportSecrets], [createSecret], [updateSecret], [deleteSecret] and
    [bulkImport], provided the clock does not go back while the request is
    under way. *)
Theorem entries_within_ttl this projectId environment key value description
    items overwrite :
  keeps_within_ttl this (exportSecrets this projectId environment) /\
  keeps_within_ttl this (createSecret this projectId environment key value description) /\
  keeps_within_ttl this (updateSecret this projectId environment key value description) /\
  keeps_within_ttl this (deleteSecret this projectId environment key) /\
  keeps_within_ttl this (bulkImport this projectId environment items overwrite).
Proof.
  split_and!;
    try apply (keeps_within_ttl_cleared _ _ _ _ _ _ (fun response => prop response "data")).
  - intros w Hw Hclock.
    destruct (fresh_entry this projectId environment w) as [entry|] eqn:Hfresh.
    { by rewrite (exportSecrets_hit _ _ _ _ _ Hfresh). }
    rewrite (exportSecrets_miss _ _ _ _ Hfresh).
    pose proof (request_clock this "GET" (export_path projectId environment)
                  VUndefined w) as Ht.
    specialize (Hclock (request_init this "GET" (export_path projectId environment)
                          VUndefined)).
    destruct (request this "GET" (export_path projectId environment) VUndefined w)
      as [c w1] eqn:Hcall.
    apply request_frame in Hcall as (Hcache & _). cbn [fst snd] in *.
    rewrite <- Ht in Hclock.
    assert (within_ttl this w1) as Hw1.
    { apply (within_ttl_shrink this w); [by rewrite Hcache|done|done]. }
    assert (within_ttl this (with_cache (delete (getCacheKey projectId environment)) w1))
      as Hevicted.
    { apply (within_ttl_shrink this w1); [apply delete_subseteq|done|done]. }
    destruct c as [response|error]; [destruct (prop response "data") as [data|]|];
      destruct (0 <? cacheTtl this); try done.
    intros k entry. simpl.
    destruct (decide (k = getCacheKey projectId environment)) as [->|Hk].
    + rewrite lookup_insert_eq. intros [= <-]. simpl. lia.
    + rewrite lookup_insert_ne by done. apply Hw1.
  - intros w Hw Hclock. unfold deleteSecret, bind.
    pose proof (request_clock this "DELETE"
                  (environment_path projectId environment +:+ "/secrets/" +:+ key)
                  VUndefined w) as Ht.
    specialize (Hclock (request_init this "DELETE"
                          (environment_path projectId environment +:+ "/secrets/" +:+ key)
                          VUndefined)).
    destruct (request _ _ _ _ w) as [[response|error] w1] eqn:Hcall;
      apply request_frame in Hcall as (Hcache & _); cbn [snd] in Ht;
      rewrite <- Ht in Hclock.
    + pose proof (clearCache_subseteq (Some projectId) (Some environment) w1) as Hsub.
      destruct (clearCache_frame (Some projectId) (Some environment) w1)
        as (_ & Hsame & _).
      apply (within_ttl_shrink this w); [by rewrite <- Hcache|by rewrite Hsame|done].
    + cbn [snd]. apply (within_ttl_shrink this w); [by rewrite Hcache|done|done].
Qed.

Lemma entries_within_ttl_witness :
  let this := example_client 300 in
  let w := new_world (always 1200 (Return (json_response 200
             (VObj [("data", VArr [secret_object "KEY1" "value1"])])))) in
  within_ttl this (exportSecrets this "proj-1" "production" w).2.
Proof.
  intros this w.
  destruct (entries_within_ttl this "proj-1" "production" "" "" None [] None)
    as (Hexport & _).
  apply Hexport.
  - intros key entry Hentry. simpl in Hentry. by rewrite lookup_empty in Hentry.
  - intros r. simpl. lia.
Defined.

(** ** [loadEnv] and the keys of [exportSecretsAsObject] *)





Lemma size_list_to_set_le (l : list string) :
  (size (list_to_set l : gset string) <= length l)%nat.
Proof.
  induction l as [|x l IH]; [by rewrite list_to_set_nil, size_empty|].
  rewrite list_to_set_cons. simpl.
  destruct (decide (x ∈ (list_to_set l : gset string))) as [Hin|Hnin].
  - rewrite (subseteq_union_1_L ({[x]} : gset string) (list_to_set l))
      by by apply singleton_subseteq_l.
    lia.
  - rewrite size_union by by apply disjoint_singleton_l.
    rewrite size_singleton. lia.
Qed.

(** X13.  The object of [exportSecretsAsObject] has exactly the keys of the
    exported secrets as its properties: an empty list gives an empty object,
    the number of properties is at most the number of secrets, and it is the
    number of secrets when no two of them share a key. *)
Theorem exportSecretsAsObject_keys this projectId environment w exported w' secrets :
  exportSecrets this projectId environment w = (Return exported, w') ->
  as_secrets exported = Some secrets ->
  exists obj,
    exportSecretsAsObject this projectId environment w = Some (Return obj, w') /\
    dom obj = list_to_set (secret_key <$> secrets) /\
    (size obj <= length secrets)%nat /\
    (NoDup (secret_key <$> secrets) -> size obj = length secrets) /\
    (secrets = [] -> obj = ∅).
Proof.
  intros Hexport Hsecrets. unfold exportSecretsAsObject.
  rewrite Hexport, Hsecrets. eexists. split; [reflexivity|].
  assert (dom (Object_fromEntries (map (fun s => (secret_key s, secret_value s)) secrets))
          = list_to_set (secret_key <$> secrets)) as Hdom.
  { apply set_eq. intros k. rewrite elem_of_dom, elem_of_list_to_set.
    unfold Object_fromEntries. rewrite foldl_insert_lookup, lookup_empty.
    rewrite list_elem_of_fmap. split.
    - intros [v Hv]. destruct (last_value k secrets) as [v'|] eqn:Hlast; [|done].
      apply last_value_Some in Hlast as (before & s & after & -> & <- & _).
      exists s. split; [done|]. apply elem_of_app. right. apply list_elem_of_here.
    - intros (s & -> & Hin).
      destruct (last_value (secret_key s) secrets) as [v'|] eqn:Hlast; [done|].
      apply last_value_None in Hlast.
      by apply (proj1 (Forall_forall _ _) Hlast) in Hin. }
  split_and!; [done| | |by intros ->].
  - rewrite <- size_dom, Hdom.
    etrans; [apply size_list_to_set_le|]. by rewrite length_fmap.
  - intros Hnodup. rewrite <- size_dom, Hdom.
    rewrite size_list_to_set by done. by rewrite length_fmap.
Qed.

Lemma exportSecretsAsObject_keys_witness :
  let this := example_client 0 in
  let exported := VArr [secret_object "KEY1" "a"; secret_object "KEY2" "b"] in
  let w := new_world (always 5 (Return (json_response 200 (VObj [("data", exported)])))) in
  exists obj,
    exportSecretsAsObject this "proj-1" "production" w =
      Some (Return obj, (exportSecrets this "proj-1" "production" w).2) /\
    dom obj = {["KEY1"; "KEY2"]} /\ size obj = 2%nat.
Proof.
  intros this exported w.
  destruct (exportSecretsAsObject_keys this "proj-1" "production" w exported
              (exportSecrets this "proj-1" "production" w).2
              [mkSecret "KEY1" "a"; mkSecret "KEY2" "b"])
    as (obj & Hrun & Hdom & _ & Hsize & _); [vm_compute; reflexivity|vm_compute; reflexivity|].
  exists obj. split; [exact Hrun|]. split.
  - rewrite Hdom. simpl. set_solver.
  - rewrite Hsize; [reflexivity|].
    simpl. apply NoDup_cons. split; [|apply NoDup_singleton].
    by intros ?%list_elem_of_singleton.
Defined.

(** ** The generated file, line by line *)

Lemma count_char_app c (a b : string) :
  count_char c (a +:+ b) = (count_char c a + count_char c b)%nat.
Proof.
  induction a as [|x a IH]; [done|].
  rewrite append_cons. simpl. rewrite IH. lia.
Qed.

Lemma count_char_includes c (s : string) :
  includes s (String c "") = false -> count_char c s = 0%nat.
Proof.
  induction s as [|a s IH]; [done|].
  rewrite includes_char_cons. intros [Ha Hs]%orb_false_iff.
  simpl. by rewrite Ha, (IH Hs).
Qed.

Lemma count_newlines_escape (value : string) :
  count_char "010" (escape value) = 0%nat.
Proof.
  unfold escape. induction value as [|c value IH]; [done|].
  simpl. rewrite count_char_app, IH.
  assert (count_char "010" (escape_char c) = 0%nat) as ->; [|done].
  unfold escape_char.
  destruct (Ascii.eqb c "092"); [done|].
  destruct (Ascii.eqb c "034"); [done|].
  destruct (Ascii.eqb c "010") eqn:Hlf; [done|].
  destruct (Ascii.eqb c "$"); [done|].
  simpl. by rewrite Hlf.
Qed.

(** The line of a secret has the newlines of its key and no other. *)
Lemma count_newlines_env_line secret :
  count_char "010" (env_line secret) = count_char "010" (secret_key secret).
Proof.
  unfold env_line.
  destruct (includes (secret_value secret) LF) eqn:Hlf; simpl.
  - rewrite replacements_escape, !count_char_app, count_newlines_escape. simpl. lia.
  - destruct (includes (secret_value secret) DQUOTE || includes (secret_value secret) "'"
              || includes (secret_value secret) " " || includes (secret_value secret) "$").
    + rewrite replacements_escape, !count_char_app, count_newlines_escape. simpl. lia.
    + rewrite !count_char_app, (count_char_includes _ _ Hlf). simpl. lia.
Qed.

Lemma count_newlines_concat (lines : list string) :
  lines <> [] ->
  count_char "010" (String.concat LF lines) =
  (foldr (fun line n => count_char "010" line + n) 0 lines + (length lines - 1))%nat.
Proof.
  induction lines as [|line lines IH]; [done|]. intros _.
  destruct lines as [|next lines]; [simpl; lia|].
  change (String.concat LF (line :: next :: lines))
    with (line +:+ LF +:+ String.concat LF (next :: lines)).
  rewrite !count_char_app, IH by done. simpl. lia.
Qed.

(** X14.  The generated file has one line for each secret after its four
    header lines, whatever the values are: when the environment name, the
    time stamp and the keys contain no newline, the file contains exactly
    four newlines more than there are secrets.  A newline in a value never
    breaks a line, since it is written as a backslash and the letter n. *)
Theorem env_file_one_line_per_secret environment generated_at secrets :
  count_char "010" environment = 0%nat ->
  count_char "010" generated_at = 0%nat ->
  Forall (fun secret => count_char "010" (secret_key secret) = 0%nat) secrets ->
  count_char "010" (env_file environment generated_at secrets) =
    (4 + length secrets)%nat.
Proof.
  intros Henv Hat Hkeys.
  rewrite env_file_lines, count_char_app, count_newlines_concat by done.
  assert (foldr (fun line n => (count_char "010" line + n)%nat) 0%nat
            (map env_line secrets) = 0%nat) as Hlines.
  { induction Hkeys as [|secret secrets Hkey _ IH]; [done|].
    simpl. by rewrite count_newlines_env_line, Hkey, IH. }
  unfold env_header. rewrite foldr_app, Hlines, length_app, length_map.
  simpl. rewrite !count_char_app, Henv, Hat. simpl. lia.
Qed.

Lemma env_file_one_line_per_secret_witness :
  count_char "010"
    (env_file "production" "2026-01-01T00:00:00.000Z"
       [mkSecret "CERT" ("line one" +:+ LF +:+ "line two"); mkSecret "SIMPLE" "value"])
  = 6%nat.
Proof.
  apply (env_file_one_line_per_secret "production" "2026-01-01T00:00:00.000Z"
           [mkSecret "CERT" ("line one" +:+ LF +:+ "line two"); mkSecret "SIMPLE" "value"]);
    [reflexivity|reflexivity|].
  repeat (apply Forall_cons; split; [reflexivity|]). apply Forall_nil_2.
Defined.

(** ** Nothing is lost in the generated file *)

Lemma escape_char_shape c :
  escape_char c = String c "" /\ c <> "092"%char \/
  c = "092"%char /\ escape_char c = String "092" (String "092" "") \/
  c = "034"%char /\ escape_char c = String "092" (String "034" "") \/
  c = "010"%char /\ escape_char c = String "092" (String "n" "") \/
  c = "$"%char /\ escape_char c = String "092" (String "$" "").
Proof.
  unfold escape_char.
  destruct (Ascii.eqb_spec c "092") as [->|Hb]; [auto|].
  destruct (Ascii.eqb_spec c "034") as [->|Hq]; [auto 6|].
  destruct (Ascii.eqb_spec c "010") as [->|Hn]; [auto 6|].
  destruct (Ascii.eqb_spec c "$") as [->|Hd]; [auto 8|].
  auto.
Qed.

(** The escaped characters form a prefix code. *)
Lemma escape_char_prefix_code c1 c2 (r1 r2 : string) :
  escape_char c1 +:+ r1 = escape_char c2 +:+ r2 -> c1 = c2 /\ r1 = r2.
Proof.
  destruct (escape_char_shape c1) as [[-> H1]|[[-> ->]|[[-> ->]|[[-> ->]|[-> ->]]]]];
    destruct (escape_char_shape c2) as [[-> H2]|[[-> ->]|[[-> ->]|[[-> ->]|[-> ->]]]]];
    rewrite ?append_cons, ?append_nil; intros Heq; simplify_eq; done.
Qed.

Lemma escape_inj v1 v2 : escape v1 = escape v2 -> v1 = v2.
Proof.
  unfold escape. revert v2.
  induction v1 as [|c1 v1 IH]; intros [|c2 v2]; simpl; [done| | |].
  - destruct (escape_char_shape c2) as [[-> _]|[[_ ->]|[[_ ->]|[[_ ->]|[_ ->]]]]];
      rewrite append_cons; discriminate.
  - destruct (escape_char_shape c1) as [[-> _]|[[_ ->]|[[_ ->]|[[_ ->]|[_ ->]]]]];
      rewrite append_cons; discriminate.
  - intros [-> Hrest]%escape_char_prefix_code. by rewrite (IH v2 Hrest).
Qed.

Lemma append_inj_r (a b c : string) : a +:+ c = b +:+ c -> a = b.
Proof.
  revert b. induction a as [|x a IH]; intros [|y b]; rewrite ?append_cons, ?append_nil.
  - done.
  - intros Heq. apply (f_equal String.length) in Heq.
    simpl in Heq. rewrite length_append in Heq. lia.
  - intros Heq. apply (f_equal String.length) in Heq.
    simpl in Heq. rewrite length_append in Heq. lia.
  - intros [= -> Hrest]. by rewrite (IH b Hrest).
Qed.

(** A key without [=] ends at the first [=] of its line. *)
Lemma key_equals_inj k1 k2 (r1 r2 : string) :
  includes k1 "=" = false -> includes k2 "=" = false ->
  k1 +:+ "=" +:+ r1 = k2 +:+ "=" +:+ r2 -> k1 = k2 /\ r1 = r2.
Proof.
  revert k2. induction k1 as [|c k1 IH]; intros [|d k2];
    rewrite ?append_cons, ?append_nil, ?includes_char_cons, ?orb_false_iff.
  - by intros _ _ [= ->].
  - intros _ [Hd _] [= <- _]. by rewrite Ascii.eqb_refl in Hd.
  - intros [Hc _] _ [= -> _]. by rewrite Ascii.eqb_refl in Hc.
  - intros [_ H1] [_ H2] [= -> Hrest]. by destruct (IH k2 H1 H2 Hrest) as [-> ->].
Qed.

(** X15.  The line of a secret tells its key and its value: two secrets
    whose keys contain no [=] and whose lines are equal are the same secret.
    Escaping loses nothing, and a quoted line is never the unquoted line of
    another value. *)
Theorem env_line_inj s1 s2 :
  includes (secret_key s1) "=" = false ->
  includes (secret_key s2) "=" = false ->
  env_line s1 = env_line s2 -> s1 = s2.
Proof.
  intros Hk1 Hk2 Hline.
  assert (forall s, env_line s = secret_key s +:+ "=" +:+
            (if includes (secret_value s) LF || includes (secret_value s) DQUOTE
                || includes (secret_value s) "'" || includes (secret_value s) " "
                || includes (secret_value s) "$"
             then DQUOTE +:+ escape (secret_value s) +:+ DQUOTE
             else secret_value s)) as Hshape.
  { intros s. unfold env_line.
    destruct (includes (secret_value s) LF || includes (secret_value s) DQUOTE
              || includes (secret_value s) "'" || includes (secret_value s) " "
              || includes (secret_value s) "$"); [|done].
    by rewrite replacements_escape. }
  rewrite (Hshape s1), (Hshape s2) in Hline.
  apply key_equals_inj in Hline as [Hkey Hrest]; [|done|done].
  assert (forall v w : string,
            includes v LF || includes v DQUOTE || includes v "'" || includes v " "
              || includes v "$" = false ->
            v <> DQUOTE +:+ w) as Hplain.
  { intros v w Hv ->. rewrite !orb_false_iff in Hv.
    destruct Hv as ((((_ & Hdq) & _) & _) & _).
    unfold DQUOTE in Hdq. rewrite append_cons, includes_char_cons in Hdq.
    by rewrite Ascii.eqb_refl in Hdq. }
  destruct s1 as [k1 v1], s2 as [k2 v2]. simpl in *. subst k2. f_equal.
  destruct (includes v1 LF || includes v1 DQUOTE || includes v1 "'" || includes v1 " "
            || includes v1 "$") eqn:H1;
    destruct (includes v2 LF || includes v2 DQUOTE || includes v2 "'" || includes v2 " "
              || includes v2 "$") eqn:H2.
  - unfold DQUOTE in Hrest. rewrite !append_cons, !append_nil in Hrest.
    injection Hrest as Hrest. by apply append_inj_r, escape_inj in Hrest.
  - symmetry in Hrest. by apply Hplain in Hrest.
  - by apply Hplain in Hrest.
  - done.
Qed.

Lemma env_line_inj_witness :
  env_line (mkSecret "KEY" "a b") = "KEY=" +:+ DQUOTE +:+ "a b" +:+ DQUOTE /\
  mkSecret "KEY" "a b" = mkSecret "KEY" ("a" +:+ " b").
Proof.
  split; [reflexivity|].
  apply (env_line_inj (mkSecret "KEY" "a b") (mkSecret "KEY" ("a" +:+ " b")));
    reflexivity.
Defined.

(** ** The base URL *)

Lemma strip_trailing_slashes_cons c (rest : string) :
  strip_trailing_slashes (String c rest) =
  match strip_trailing_slashes rest with
  | EmptyString => if Ascii.eqb c "/" then EmptyString else String c EmptyString
  | kept => String c kept
  end.
Proof. reflexivity. Qed.

Lemma strip_trailing_slashes_fixed (s : string) :
  ends_with_slash s = false -> strip_trailing_slashes s = s.
Proof.
  induction s as [|c rest IH]; [done|].
  rewrite strip_trailing_slashes_cons. destruct rest as [|d rest].
  - simpl. by intros ->.
  - intros Hends. rewrite IH; done.
Qed.

Lemma strip_trailing_slashes_split (s : string) :
  ends_with_slash (strip_trailing_slashes s) = false /\
  exists n, s = strip_trailing_slashes s +:+ slashes n.
Proof.
  induction s as [|c rest [Hends [n Hn]]]; [split; [done|by exists 0%nat]|].
  rewrite strip_trailing_slashes_cons.
  destruct (strip_trailing_slashes rest) as [|d kept] eqn:Hrest.
  - rewrite append_nil in Hn. destruct (Ascii.eqb_spec c "/") as [->|Hc].
    + split; [done|]. exists (S n). by rewrite Hn.
    + split; [by apply Ascii.eqb_neq|]. exists n. by rewrite Hn.
  - split; [done|]. exists n. by rewrite append_cons, <- Hn.
Qed.

(** X16.  The constructor removes the slashes at the end of the base URL and
    nothing else: the base URL of every client it builds does not end with a
    slash, is the given URL without a number of slashes at its end, and is
    the given URL itself when that does not end with a slash. *)
Theorem new_KeyEnv_baseUrl parseInt options env this :
  new_KeyEnv parseInt options env = Return this ->
  let given :=
    match options_baseUrl options with
    | Some url => url
    | None => default DEFAULT_BASE_URL (KEYENV_API_URL env)
    end in
  ends_with_slash (baseUrl this) = false /\
  (exists n, given = baseUrl this +:+ slashes n) /\
  (ends_with_slash given = false -> baseUrl this = given) /\
  options_token options <> "".
Proof.
  intros Hnew given. unfold new_KeyEnv, truthy_string in Hnew.
  destruct (String.eqb_spec (options_token options) "") as [Hempty|Htoken];
    [done|].
  injection Hnew as <-. cbn [baseUrl]. fold given.
  destruct (strip_trailing_slashes_split given) as [Hends Hsplit].
  split_and!; [done|done| |done].
  apply strip_trailing_slashes_fixed.
Qed.

Lemma new_KeyEnv_baseUrl_witness :
  exists this,
    new_KeyEnv (fun _ => 0)
      {| options_token := "t"; options_baseUrl := None;
         options_timeout := None; options_cacheTtl := None |}
      {| KEYENV_API_URL := Some "http://localhost:8081///"; KEYENV_CACHE_TTL := None |}
      = Return this /\
    baseUrl this = "http://localhost:8081" /\
    ends_with_slash (baseUrl this) = false.
Proof.
  eexists. split; [reflexivity|]. split; [reflexivity|].
  eapply (new_KeyEnv_baseUrl (fun _ => 0)
            {| options_token := "t"; options_baseUrl := None;
               options_timeout := None; options_cacheTtl := None |}
            {| KEYENV_API_URL := Some "http://localhost:8081///";
               KEYENV_CACHE_TTL := None |}).
  reflexivity.
Defined.
